(** * Fridge_react: the REST layer of [backend/server.js] over [fridge_items]

    The server is a set of Express handlers, each of which runs one
    parameterised SQL statement through [pool.query] and maps the result
    to a status code and a JSON body.  The development embeds

    - the JavaScript values the handlers inspect (request body fields,
      path parameters, [String.prototype.trim], [??], [?.]);
    - the table [fridge_items] as declared by [createTable] and
      [init.sql], with the column types, the [SERIAL] sequence and the
      [PRIMARY KEY] check, and the four statements the handlers issue;
    - the handlers themselves, and the startup sequence
      [checkConnection] / [createTable] / [app.listen];

    and then states the properties of the request/response contract. *)

From Stdlib Require Import ZArith NArith List Bool String Ascii Lia.
From Stdlib Require Import Permutation Sorted Floats.
Import ListNotations.

Open Scope Z_scope.

(** ** JavaScript values *)

Module JS.

(** A string is the sequence of its characters, each given by its
    Unicode code point; a surrogate that is not part of a pair stands
    in the sequence as itself. *)
Definition jsstring := list N.

(** A string literal of the source (ASCII). *)
Definition lit (s : string) : jsstring :=
  map N_of_ascii (list_ascii_of_string s).

(** WhiteSpace and LineTerminator code points of ECMAScript, the ones
    [String.prototype.trim] strips. *)
Definition is_white_space (c : N) : bool :=
  ((c =? 9) || (c =? 10) || (c =? 11) || (c =? 12) || (c =? 13)
   || (c =? 32) || (c =? 160) || (c =? 5760)
   || ((8192 <=? c) && (c <=? 8202))
   || (c =? 8232) || (c =? 8233) || (c =? 8239) || (c =? 8287)
   || (c =? 12288) || (c =? 65279))%N.

Fixpoint trimStart (s : jsstring) : jsstring :=
  match s with
  | [] => []
  | c :: s' => if is_white_space c then trimStart s' else s
  end.

Definition trimEnd (s : jsstring) : jsstring :=
  rev (trimStart (rev s)).

Definition trim (s : jsstring) : jsstring :=
  trimEnd (trimStart s).

(** The values [JSON.parse] can put in a body field, apart from
    [null].  The handlers never look inside arrays and objects. *)
Inductive defined : Type :=
| JBool (b : bool)
| JNumber (x : float)
| JString (s : jsstring)
| JArray
| JObject.

(** A body field: missing ([undefined]), [null], or a value. *)
Inductive value : Type :=
| undefined
| null
| Def (v : defined).

(** [v ?? d] *)
Definition nullish_coalescing (v : value) (d : defined) : defined :=
  match v with
  | undefined | null => d
  | Def x => x
  end.

(** What a [try] block can throw into its [catch]: a [TypeError] of
    the handler's own code, or the error of a rejected query; the
    payload stands for [err.message]. *)
Inductive exn (E : Type) : Type :=
| TypeError (msg : string)
| DatabaseError (e : E).

Arguments TypeError {E} msg.
Arguments DatabaseError {E} e.

End JS.

Import JS.

(** ** The table and the statements run against it *)

(** One row of [fridge_items]: [id SERIAL PRIMARY KEY], [name
    VARCHAR(255) NOT NULL], [is_in_fridge BOOLEAN DEFAULT true],
    [created_at TIMESTAMP DEFAULT CURRENT_TIMESTAMP] (a clock reading).
    Every INSERT of the server and of [init.sql] supplies a flag and
    leaves the timestamp to its default, so neither column holds NULL. *)
Record fridge_item : Type := {
  id : Z;
  name : jsstring;
  is_in_fridge : bool;
  created_at : Z
}.

Module Pg.

(** The errors the engine raises for the statements of the server. *)
Inductive error : Type :=
| invalid_text_representation (type : string)   (* 22P02 *)
| numeric_value_out_of_range (type : string)    (* 22003 *)
| string_data_right_truncation (n : nat)        (* 22001 *)
| unique_violation (key : Z)                    (* 23505 *)
| character_not_in_repertoire                   (* 22021 *)
| sequence_generator_limit_exceeded.            (* 2200H *)

Definition result (A : Type) : Type := (error + A)%type.

(** The database: the rows of [fridge_items] in storage order, and
    the next value of the sequence behind [id SERIAL]. *)
Record db : Type := {
  fridge_items : list fridge_item;
  fridge_items_id_seq : Z
}.

(** [isspace] of the C locale, used by the input functions. *)
Definition isspace (c : N) : bool :=
  ((c =? 32) || ((9 <=? c) && (c <=? 13)))%N.

Definition isdigit (c : N) : bool :=
  ((48 <=? c) && (c <=? 57))%N.

Fixpoint skip_spaces (s : jsstring) : jsstring :=
  match s with
  | [] => []
  | c :: s' => if isspace c then skip_spaces s' else s
  end.

Definition strip (s : jsstring) : jsstring :=
  rev (skip_spaces (rev (skip_spaces s))).

(** The decimal digits of a non-empty all-digit string, as a number. *)
Fixpoint digits (acc : Z) (s : jsstring) : option Z :=
  match s with
  | [] => Some acc
  | c :: s' =>
      if isdigit c then digits (10 * acc + (Z.of_N c - 48)) s' else None
  end.

Definition int4_min : Z := -2147483648.
Definition int4_max : Z := 2147483647.

(** Input function of [integer], the type of the column [id]:
    optional blanks, an optional sign, one or more decimal digits,
    optional blanks; the value must fit in 32 bits. *)
Definition int4in (s : jsstring) : result Z :=
  let ty := "integer"%string in
  let signed (neg : bool) (ds : jsstring) : result Z :=
    match ds with
    | [] => inl (invalid_text_representation ty)
    | _ :: _ =>
        match digits 0 ds with
        | None => inl (invalid_text_representation ty)
        | Some n =>
            let v := if neg then - n else n in
            if (int4_min <=? v) && (v <=? int4_max) then inr v
            else inl (numeric_value_out_of_range ty)
        end
    end in
  match strip s with
  | 45%N :: ds => signed true ds
  | 43%N :: ds => signed false ds
  | ds => signed false ds
  end.

Definition tolower (c : N) : N :=
  if ((65 <=? c) && (c <=? 90))%N then (c + 32)%N else c.

Fixpoint is_prefix (p w : jsstring) : bool :=
  match p, w with
  | [], _ => true
  | _ :: _, [] => false
  | a :: p', b :: w' => (a =? b)%N && is_prefix p' w'
  end.

(** Input function of [boolean]: after stripping blanks, a
    case-insensitive non-empty prefix of [true], [false], [yes],
    [no], at least two characters of [on] or [off], or [1] / [0]. *)
Definition boolin (s : jsstring) : result bool :=
  let w := map tolower (strip s) in
  let word (x : string) := is_prefix w (lit x) in
  match w with
  | [] => inl (invalid_text_representation "boolean"%string)
  | [49%N] => inr true
  | [48%N] => inr false
  | _ =>
      if word "true"%string || word "yes"%string
         || ((1 <? List.length w)%nat && word "on"%string)
      then inr true
      else if word "false"%string || word "no"%string
              || ((1 <? List.length w)%nat && word "off"%string)
      then inr false
      else inl (invalid_text_representation "boolean"%string)
  end.

(** Binding a JavaScript value to a [boolean] parameter.  The driver
    sends a boolean as [true] / [false], a number and a string as
    their text, an array or an object as text starting with a brace;
    a number prints as [1] only when it equals 1 and as [0] only when
    it is zero. *)
Definition bind_boolean (v : defined) : result bool :=
  match v with
  | JBool b => inr b
  | JNumber x =>
      if (x =? 1)%float then inr true
      else if (x =? 0)%float then inr false
      else inl (invalid_text_representation "boolean"%string)
  | JString s => boolin s
  | JArray | JObject => inl (invalid_text_representation "boolean"%string)
  end.

Definition is_high_surrogate (c : N) : bool :=
  ((55296 <=? c) && (c <=? 56319))%N.

Definition is_low_surrogate (c : N) : bool :=
  ((56320 <=? c) && (c <=? 57343))%N.

(** The character a surrogate pair encodes. *)
Definition surrogate_pair (h l : N) : N :=
  (65536 + (h - 55296) * 1024 + (l - 56320))%N.

(** The characters of a string parameter as the engine receives them:
    the driver sends the string in UTF-8, in which a surrogate pair is
    one character and a surrogate without its partner is replaced by
    U+FFFD. *)
Fixpoint characters (s : jsstring) : jsstring :=
  match s with
  | [] => []
  | h :: rest =>
      if is_high_surrogate h then
        match rest with
        | l :: rest' =>
            if is_low_surrogate l
            then surrogate_pair h l :: characters rest'
            else 65533%N :: characters rest
        | [] => [65533%N]
        end
      else if is_low_surrogate h then 65533%N :: characters rest
      else h :: characters rest
  end.

(** A text parameter on arrival: the engine refuses U+0000. *)
Definition textin (s : jsstring) : result jsstring :=
  let text := characters s in
  if existsb (N.eqb 0) text then inl character_not_in_repertoire
  else inr text.

(** Storing text into a [VARCHAR(n)] column: a longer string is an
    error unless the excess is all spaces, which are cut off. *)
Definition varchar (n : nat) (s : jsstring) : result jsstring :=
  if (List.length s <=? n)%nat then inr s
  else if forallb (N.eqb 32) (skipn n s) then inr (firstn n s)
  else inl (string_data_right_truncation n).

(** [ORDER BY created_at DESC] over the rows in scan order. *)
Fixpoint insert_desc (r : fridge_item) (l : list fridge_item)
  : list fridge_item :=
  match l with
  | [] => [r]
  | x :: l' =>
      if created_at x <=? created_at r then r :: l
      else x :: insert_desc r l'
  end.

Definition order_by_created_at_desc (rows : list fridge_item)
  : list fridge_item :=
  fold_right insert_desc [] rows.

Definition has_id (n : Z) (r : fridge_item) : bool := id r =? n.

(** [SET is_in_fridge = NOT is_in_fridge] *)
Definition set_not_is_in_fridge (r : fridge_item) : fridge_item :=
  {| id := id r;
     name := name r;
     is_in_fridge := negb (is_in_fridge r);
     created_at := created_at r |}.

(** [WHERE id = n]: the rows a statement selects. *)
Definition where_id (n : Z) (rows : list fridge_item)
  : list fridge_item :=
  filter (has_id n) rows.

(** The table after [UPDATE ... SET is_in_fridge = NOT is_in_fridge
    WHERE id = n]. *)
Definition update_where_id (n : Z) (rows : list fridge_item)
  : list fridge_item :=
  map (fun r => if has_id n r then set_not_is_in_fridge r else r) rows.

(** The table after [DELETE ... WHERE id = n]. *)
Definition delete_where_id (n : Z) (rows : list fridge_item)
  : list fridge_item :=
  filter (fun r => negb (has_id n r)) rows.

(** The statements of [server.js], with their parameters. *)
Inductive statement : Type :=
| SELECT_NOW
| SELECT_1
| CREATE_TABLE_IF_NOT_EXISTS
| SELECT_ALL_ORDER_BY_created_at_DESC
| INSERT_RETURNING (p1 : jsstring) (p2 : defined)
| UPDATE_NOT_is_in_fridge_RETURNING (p1 : jsstring)
| DELETE_RETURNING (p1 : jsstring).

(** [pool.query] on a connected database, at clock reading [now]:
    the rows of the result (or the error) and the database after the
    statement.  A statement that fails leaves the table as it was.
    The INSERT is refused when a parameter does not arrive as a value
    of its column type or the name does not fit the column, before any
    id is drawn; the sequence behind [SERIAL] gives no value above
    2147483647; a value once drawn is not given back, also when the
    primary key then refuses the row. *)
Definition query (now : Z) (q : statement) (d : db)
  : result (list fridge_item) * db :=
  let rows := fridge_items d in
  let seq := fridge_items_id_seq d in
  match q with
  | SELECT_NOW | SELECT_1 | CREATE_TABLE_IF_NOT_EXISTS => (inr [], d)
  | SELECT_ALL_ORDER_BY_created_at_DESC =>
      (inr (order_by_created_at_desc rows), d)
  | INSERT_RETURNING p1 p2 =>
      match textin p1 with
      | inl e => (inl e, d)
      | inr sent =>
          match bind_boolean p2 with
          | inl e => (inl e, d)
          | inr flag =>
              match varchar 255 sent with
              | inl e => (inl e, d)
              | inr text =>
                  if int4_max <? seq
                  then (inl sequence_generator_limit_exceeded, d)
                  else
                    let drawn := {| fridge_items := rows;
                                    fridge_items_id_seq := seq + 1 |} in
                    if existsb (has_id seq) rows
                    then (inl (unique_violation seq), drawn)
                    else
                      let r := {| id := seq;
                                  name := text;
                                  is_in_fridge := flag;
                                  created_at := now |} in
                      (inr [r], {| fridge_items := rows ++ [r];
                                   fridge_items_id_seq := seq + 1 |})
              end
          end
      end
  | UPDATE_NOT_is_in_fridge_RETURNING p1 =>
      match int4in p1 with
      | inl e => (inl e, d)
      | inr n =>
          (inr (map set_not_is_in_fridge (where_id n rows)),
           {| fridge_items := update_where_id n rows;
              fridge_items_id_seq := seq |})
      end
  | DELETE_RETURNING p1 =>
      match int4in p1 with
      | inl e => (inl e, d)
      | inr n =>
          (inr (where_id n rows),
           {| fridge_items := delete_where_id n rows;
              fridge_items_id_seq := seq |})
      end
  end.

End Pg.

(** ** The handlers of [server.js] *)

Module Server.

Import Pg.

(** JSON bodies the handlers send. *)
Inductive json : Type :=
| rows_json (rows : list fridge_item)
| row_json (row : fridge_item)
| deleted_json (message : string) (deletedItem : fridge_item)
| error_json (error : string) (details : option (exn Pg.error))
| health_json (status database : string) (timestamp : Z).

Record response : Type := {
  status : Z;
  body : json
}.

(** [req.body] of POST /api/items: the two fields the handler reads. *)
Record post_body : Type := {
  body_name : value;
  body_isInFridge : value
}.

Inductive request : Type :=
| GET_health
| GET_items
| POST_items (b : post_body)
| PATCH_toggle (id : jsstring)
| DELETE_item (id : jsstring)
| other_route.

(** The body of a [try] block: it reads and updates the database and
    either completes with a value or throws. *)
Definition try_block (A : Type) : Type :=
  db -> (exn Pg.error + A) * db.

Definition ret {A : Type} (a : A) : try_block A :=
  fun d => (inr a, d).

Definition throw {A : Type} (e : exn Pg.error) : try_block A :=
  fun d => (inl e, d).

Definition bind {A B : Type} (m : try_block A) (k : A -> try_block B)
  : try_block B :=
  fun d =>
    match m d with
    | (inl e, d') => (inl e, d')
    | (inr a, d') => k a d'
    end.

Notation "x <- m ;; k" := (bind m (fun x => k))
  (at level 61, m at next level, right associativity).

(** [await pool.query(q)]: a rejected query throws its error. *)
Definition pool_query (now : Z) (q : statement)
  : try_block (list fridge_item) :=
  fun d =>
    match query now q d with
    | (inl e, d') => (inl (DatabaseError e), d')
    | (inr rows, d') => (inr rows, d')
    end.

(** [try { ... } catch (err) { ... }] around a handler body. *)
Definition try_catch (m : try_block response)
           (handler : exn Pg.error -> response) (d : db)
  : response * db :=
  match m d with
  | (inl err, d') => (handler err, d')
  | (inr r, d') => (r, d')
  end.

Definition res (code : Z) (j : json) : response :=
  {| status := code; body := j |}.

(** [res.status(500).json({ error: 'Database error', details: err.message })] *)
Definition database_error (err : exn Pg.error) : response :=
  res 500 (error_json "Database error" (Some err)).

Definition name_required : response :=
  res 400 (error_json "Name is required" None).

Definition item_not_found : response :=
  res 404 (error_json "Item not found" None).

(** [result.rows[0]], on which the handlers read [.name] before they
    answer. *)
Definition first_row (rows : list fridge_item) : try_block fridge_item :=
  match rows with
  | r :: _ => ret r
  | [] => throw (TypeError "Cannot read properties of undefined")
  end.

(** app.get('/api/health') *)
Definition get_health (now : Z) : db -> response * db :=
  try_catch
    (_ <- pool_query now SELECT_1 ;;
     ret (res 200 (health_json "OK" "connected" now)))
    (fun err => res 500 (health_json "ERROR" "disconnected" now)).

(** app.get('/api/items') *)
Definition get_items (now : Z) : db -> response * db :=
  try_catch
    (rows <- pool_query now SELECT_ALL_ORDER_BY_created_at_DESC ;;
     ret (res 200 (rows_json rows)))
    database_error.

(** app.post('/api/items') *)
Definition post_items (now : Z) (b : post_body) : db -> response * db :=
  try_catch
    (match body_name b with
     | undefined | null => ret name_required
     | Def (JString s) =>
         match trim s with
         | [] => ret name_required
         | _ :: _ =>
             rows <- pool_query now
                       (INSERT_RETURNING
                          (trim s)
                          (nullish_coalescing (body_isInFridge b)
                                              (JBool true))) ;;
             r <- first_row rows ;;
             ret (res 201 (row_json r))
         end
     | Def _ => throw (TypeError "name?.trim is not a function")
     end)
    database_error.

(** app.patch('/api/items/:id/toggle') *)
Definition patch_toggle (now : Z) (id : jsstring) : db -> response * db :=
  try_catch
    (rows <- pool_query now (UPDATE_NOT_is_in_fridge_RETURNING id) ;;
     match rows with
     | [] => ret item_not_found
     | r :: _ => ret (res 200 (row_json r))
     end)
    database_error.

(** app.delete('/api/items/:id') *)
Definition delete_item (now : Z) (id : jsstring) : db -> response * db :=
  try_catch
    (rows <- pool_query now (DELETE_RETURNING id) ;;
     match rows with
     | [] => ret item_not_found
     | r :: _ => ret (res 200 (deleted_json "Item deleted" r))
     end)
    database_error.

(** app.use('*') *)
Definition route_not_found : response :=
  res 404 (error_json "Route not found" None).

(** One request served at clock reading [now]. *)
Definition handle (now : Z) (rq : request) (d : db) : response * db :=
  match rq with
  | GET_health => get_health now d
  | GET_items => get_items now d
  | POST_items b => post_items now b d
  | PATCH_toggle i => patch_toggle now i d
  | DELETE_item i => delete_item now i d
  | other_route => (route_not_found, d)
  end.

(** *** Startup *)

(** What the startup code does, in order.  [connected k] tells
    whether the [k]-th query of the startup reaches the database. *)
Inductive event : Type :=
| resolved (q : statement)
| rejected (q : statement)
| console_log (msg : string) (interpolated : list nat)
| setTimeout (ms : Z)
| app_listen.

(** The loop [while (retries) { try { ...; break } catch { ... } }]
    of [checkConnection], entered with [k] queries already issued:
    the events and the number of queries issued when it is left. *)
Fixpoint while_retries (connected : nat -> bool) (k : nat) (retries : nat)
  : list event * nat :=
  match retries with
  | O => ([], k)
  | S retries' =>
      if connected k
      then ([resolved SELECT_NOW; console_log "connected" []], S k)
      else
        let (rest, k') := while_retries connected (S k) retries' in
        (rejected SELECT_NOW :: console_log "retry in 5 seconds" [retries]
           :: setTimeout 5000 :: rest, k')
  end.

Definition checkConnection (connected : nat -> bool) : list event * nat :=
  while_retries connected 0%nat 5%nat.

Definition createTable (connected : nat -> bool) (k : nat)
  : list event * nat :=
  if connected k
  then ([resolved CREATE_TABLE_IF_NOT_EXISTS; console_log "table ready" []],
        S k)
  else ([rejected CREATE_TABLE_IF_NOT_EXISTS; console_log "table error" []],
        S k).

Definition initializeApp (connected : nat -> bool) : list event :=
  let (t1, k1) := checkConnection connected in
  let (t2, _) := createTable connected k1 in
  t1 ++ t2 ++ [app_listen].

End Server.

Import Pg Server.

(** ** Vocabulary of the properties *)

(** The table right after [createTable] on a fresh database. *)
Definition empty_db : db :=
  {| fridge_items := []; fridge_items_id_seq := 1 |}.

(** The table after [init.sql]: one INSERT of six rows, which all get
    the timestamp [now] of that statement. *)
Definition init_sql (now : Z) : db :=
  let row (i : Z) (n : jsstring) (b : bool) :=
    {| id := i; name := n; is_in_fridge := b; created_at := now |} in
  {| fridge_items :=
       [ row 1 [1052; 1086; 1083; 1086; 1082; 1086]%N true;
         row 2 [1071; 1081; 1094; 1072]%N true;
         row 3 [1061; 1083; 1077; 1073]%N false;
         row 4 [1057; 1099; 1088]%N true;
         row 5 [1055; 1086; 1084; 1080; 1076; 1086; 1088; 1099]%N true;
         row 6 [1050; 1091; 1088; 1080; 1094; 1072]%N true ];
     fridge_items_id_seq := 7 |}.

Definition ids (d : db) : list Z := map id (fridge_items d).

(** Empty or made of white space only. *)
Definition blank (s : jsstring) : bool := forallb is_white_space s.

(** The [name] field of a POST body that the handler refuses: missing,
    [null], or a blank string. *)
Definition name_absent_or_blank (v : value) : bool :=
  match v with
  | undefined | null => true
  | Def (JString s) => blank s
  | Def _ => false
  end.

(** The [isInFridge] field as a flag: a boolean stands for itself,
    a missing or [null] field for [true]; other values are not flags. *)
Definition flag_of (v : value) : option bool :=
  match v with
  | undefined | null => Some true
  | Def (JBool b) => Some b
  | Def _ => None
  end.

(** Text that the engine receives and keeps as it is sent: Unicode
    characters other than U+0000, with no surrogate outside a pair. *)
Definition plain_text (s : jsstring) : bool :=
  forallb (fun c => negb (c =? 0)%N
                    && (c <=? 1114111)%N
                    && negb (is_high_surrogate c)
                    && negb (is_low_surrogate c)) s.

(** A string that starts and ends with a visible character. *)
Definition visible_ends (t : jsstring) : Prop :=
  (exists c x, t = c :: x /\ is_white_space c = false)
  /\ (exists x c, t = x ++ [c] /\ is_white_space c = false).

(** The path parameter [p] denotes the integer [n] in [WHERE id = $1]. *)
Definition denotes (p : jsstring) (n : Z) : Prop := int4in p = inr n.

(** Whether [WHERE id = $1] selects row [r] for the parameter [p]. *)
Definition selects (p : jsstring) (r : fridge_item) : bool :=
  match int4in p with
  | inr n => has_id n r
  | inl _ => false
  end.

(** The sequence is ahead of every stored id, as it is in a table
    filled through the sequence only. *)
Definition seq_ahead (d : db) : Prop :=
  Forall (fun r => id r < fridge_items_id_seq d) (fridge_items d).

(** The data-model invariant: no blank name, no two rows with one id. *)
Definition invariant (d : db) : Prop :=
  Forall (fun r => blank (name r) = false) (fridge_items d)
  /\ NoDup (ids d).

(** States reached from [d] by serving requests. *)
Inductive reachable (d : db) : db -> Prop :=
| reach_here : reachable d d
| reach_step : forall d1 now rq,
    reachable d d1 -> reachable d (snd (handle now rq d1)).

(** Newest first. *)
Definition newer_or_same (a b : fridge_item) : Prop :=
  created_at b <= created_at a.

(** What the toggle with parameter [p] does to one row [x], giving
    [x']: a selected row has its flag negated and its other fields
    kept; any other row is kept whole. *)
Definition toggle_effect (p : jsstring) (x x' : fridge_item) : Prop :=
  id x' = id x /\ name x' = name x /\ created_at x' = created_at x
  /\ if selects p x
     then is_in_fridge x' = negb (is_in_fridge x)
     else x' = x.

(** What one request may do to the rows it finds in the table. *)
Definition row_effect (rq : request) (before after : list fridge_item)
  : Prop :=
  match rq with
  | PATCH_toggle p => Forall2 (toggle_effect p) before after
  | POST_items _ =>
      exists added, after = before ++ added /\ (List.length added <= 1)%nat
  | DELETE_item p =>
      after = filter (fun x => negb (selects p x)) before
  | GET_health | GET_items | other_route =>
      after = before
  end.

(** The three events of one failed attempt of [checkConnection], made
    with [retries] attempts left. *)
Definition failed_attempt (retries : nat) : list event :=
  [rejected SELECT_NOW; console_log "retry in 5 seconds" [retries];
   setTimeout 5000].

(** [n] failed attempts in a row, the first made with [retries] left. *)
Fixpoint failed_attempts (retries n : nat) : list event :=
  match n with
  | O => []
  | S n' => failed_attempt retries ++ failed_attempts (pred retries) n'
  end.

(** The queries [SELECT NOW()] in a trace. *)
Definition is_probe (e : event) : bool :=
  match e with
  | resolved SELECT_NOW | rejected SELECT_NOW => true
  | _ => false
  end.

Definition attempts (t : list event) : nat :=
  List.length (filter is_probe t).

(** The waiting a trace asks for, in milliseconds. *)
Definition delay_of (e : event) : Z :=
  match e with
  | setTimeout ms => ms
  | _ => 0
  end.

Definition total_delay (t : list event) : Z :=
  fold_right (fun e acc => delay_of e + acc) 0 t.

Definition is_failed_probe (e : event) : bool :=
  match e with
  | rejected SELECT_NOW => true
  | _ => false
  end.

Definition is_query (e : event) : bool :=
  match e with
  | resolved _ | rejected _ => true
  | _ => false
  end.

Definition is_create_table (e : event) : bool :=
  match e with
  | resolved CREATE_TABLE_IF_NOT_EXISTS
  | rejected CREATE_TABLE_IF_NOT_EXISTS => true
  | _ => false
  end.

Definition is_listen (e : event) : bool :=
  match e with
  | app_listen => true
  | _ => false
  end.

Definition count (f : event -> bool) (t : list event) : nat :=
  List.length (filter f t).

(** A name as the server stores it: nothing to trim, not empty, and
    within the 255 characters of the column. *)
Definition well_kept (s : jsstring) : Prop :=
  trim s = s /\ s <> [] /\ (List.length s <= 255)%nat.

(** The path parameter of a request that names a row by its id. *)
Definition target (rq : request) : option jsstring :=
  match rq with
  | PATCH_toggle p | DELETE_item p => Some p
  | _ => None
  end.

(** ** The item routes over any pool *)

(** The bodies of the four handlers of [/api/items], with [pool.query]
    left open, so that they can be run against a pool that rejects. *)
Module Routes.

Section Pool.

Variable pool : Z -> statement -> try_block (list fridge_item).

(** app.get('/api/items') *)
Definition get_items (now : Z) : db -> response * db :=
  try_catch
    (rows <- pool now SELECT_ALL_ORDER_BY_created_at_DESC ;;
     ret (res 200 (rows_json rows)))
    database_error.

(** app.post('/api/items') *)
Definition post_items (now : Z) (b : post_body) : db -> response * db :=
  try_catch
    (match body_name b with
     | undefined | null => ret name_required
     | Def (JString s) =>
         match trim s with
         | [] => ret name_required
         | _ :: _ =>
             rows <- pool now
                       (INSERT_RETURNING
                          (trim s)
                          (nullish_coalescing (body_isInFridge b)
                                              (JBool true))) ;;
             r <- first_row rows ;;
             ret (res 201 (row_json r))
         end
     | Def _ => throw (TypeError "name?.trim is not a function")
     end)
    database_error.

(** app.patch('/api/items/:id/toggle') *)
Definition patch_toggle (now : Z) (id : jsstring) : db -> response * db :=
  try_catch
    (rows <- pool now (UPDATE_NOT_is_in_fridge_RETURNING id) ;;
     match rows with
     | [] => ret item_not_found
     | r :: _ => ret (res 200 (row_json r))
     end)
    database_error.

(** app.delete('/api/items/:id') *)
Definition delete_item (now : Z) (id : jsstring) : db -> response * db :=
  try_catch
    (rows <- pool now (DELETE_RETURNING id) ;;
     match rows with
     | [] => ret item_not_found
     | r :: _ => ret (res 200 (deleted_json "Item deleted" r))
     end)
    database_error.

(** The routes under [/api/items]; the other requests do not belong
    to them. *)
Definition items_route (now : Z) (rq : request) (d : db)
  : option (response * db) :=
  match rq with
  | GET_items => Some (get_items now d)
  | POST_items b => Some (post_items now b d)
  | PATCH_toggle i => Some (patch_toggle now i d)
  | DELETE_item i => Some (delete_item now i d)
  | GET_health | other_route => None
  end.

End Pool.


End Routes.

(** ** Facts about [trim] and the column types *)

Section Trim.

Lemma trimStart_blank (s : jsstring) :
  trimStart s = [] <-> blank s = true.
Proof.
  induction s as [|c s IH]; simpl.
  - tauto.
  - destruct (is_white_space c); simpl.
    + exact IH.
    + split; discriminate.
Qed.

Lemma trimStart_head (s t : jsstring) (c : N) :
  trimStart s = c :: t -> is_white_space c = false.
Proof.
  induction s as [|a s IH]; simpl.
  - discriminate.
  - destruct (is_white_space a) eqn:Ha.
    + exact IH.
    + intros E. injection E as -> _. exact Ha.
Qed.

Lemma blank_rev (s : jsstring) : blank (rev s) = blank s.
Proof.
  unfold blank. induction s as [|c s IH]; simpl.
  - reflexivity.
  - rewrite forallb_app, IH. simpl. rewrite andb_true_r. apply andb_comm.
Qed.

Lemma trim_blank (s : jsstring) : trim s = [] <-> blank s = true.
Proof.
  unfold trim, trimEnd. split.
  - intros E. apply (f_equal (@rev N)) in E. rewrite rev_involutive in E.
    simpl in E. apply trimStart_blank in E. rewrite blank_rev in E.
    destruct (trimStart s) as [|c t] eqn:Es.
    + now apply trimStart_blank.
    + apply trimStart_head in Es. simpl in E. rewrite Es in E.
      discriminate.
  - intros B. apply trimStart_blank in B. rewrite B. reflexivity.
Qed.

(** A trimmed string that is not empty ends in a visible character. *)
Lemma trim_last (s : jsstring) :
  trim s <> [] ->
  exists t c, trim s = t ++ [c] /\ is_white_space c = false.
Proof.
  unfold trim, trimEnd. intros NE.
  destruct (trimStart (rev (trimStart s))) as [|c v] eqn:E.
  - now elim NE.
  - exists (rev v), c. split.
    + reflexivity.
    + now apply trimStart_head in E.
Qed.

Lemma trim_not_blank (s : jsstring) :
  trim s <> [] -> blank (trim s) = false.
Proof.
  intros NE. destruct (trim_last s NE) as (t & c & -> & Hc).
  unfold blank. rewrite forallb_app. simpl. rewrite Hc.
  now rewrite andb_false_r.
Qed.

Lemma skipn_snoc (n : nat) (t : jsstring) (c : N) :
  (n <= List.length t)%nat -> skipn n (t ++ [c]) = skipn n t ++ [c].
Proof.
  intros L. rewrite skipn_app.
  replace (n - List.length t)%nat with 0%nat by lia. reflexivity.
Qed.

(** A trimmed name is stored as it is when it fits, and refused when
    it does not: its last character is not a space. *)
Lemma varchar_trim (n : nat) (s : jsstring) :
  trim s <> [] ->
  varchar n (trim s) =
    if (List.length (trim s) <=? n)%nat then inr (trim s)
    else inl (string_data_right_truncation n).
Proof.
  intros NE. unfold varchar.
  destruct (List.length (trim s) <=? n)%nat eqn:L; [reflexivity|].
  apply Nat.leb_gt in L.
  destruct (trim_last s NE) as (t & c & E & Hc). rewrite E in *.
  rewrite length_app in L. simpl in L.
  assert (N.eqb 32 c = false) as Hsp.
  { destruct (N.eqb_spec 32 c) as [<-|]; [discriminate Hc | reflexivity]. }
  rewrite skipn_snoc by lia. rewrite forallb_app. cbn [forallb].
  rewrite Hsp. now rewrite andb_false_r.
Qed.

End Trim.

(** ** Facts about the statements *)

Section Statements.

Lemma set_not_involutive (r : fridge_item) :
  set_not_is_in_fridge (set_not_is_in_fridge r) = r.
Proof.
  destruct r as [i n b c]. unfold set_not_is_in_fridge. simpl.
  now rewrite negb_involutive.
Qed.

Lemma has_id_set_not (n : Z) (r : fridge_item) :
  has_id n (set_not_is_in_fridge r) = has_id n r.
Proof. reflexivity. Qed.

Lemma update_twice (n : Z) (rows : list fridge_item) :
  update_where_id n (update_where_id n rows) = rows.
Proof.
  unfold update_where_id. rewrite map_map.
  rewrite <- (map_id rows) at 2. apply map_ext. intros r.
  destruct (has_id n r) eqn:H.
  - rewrite has_id_set_not, H. apply set_not_involutive.
  - now rewrite H.
Qed.

Lemma where_id_update (n : Z) (rows : list fridge_item) :
  where_id n (update_where_id n rows) =
  map set_not_is_in_fridge (where_id n rows).
Proof.
  unfold where_id, update_where_id.
  induction rows as [|r rows IH]; simpl; [reflexivity|].
  destruct (has_id n r) eqn:H.
  - rewrite has_id_set_not, H. simpl. now rewrite IH.
  - rewrite H. exact IH.
Qed.

Lemma where_id_In (n : Z) (rows : list fridge_item) (r : fridge_item) :
  In r rows -> id r = n -> where_id n rows <> [].
Proof.
  intros HIn Hid E.
  assert (In r (where_id n rows)) as H.
  { apply filter_In. split; [exact HIn|]. unfold has_id.
    now apply Z.eqb_eq. }
  rewrite E in H. exact H.
Qed.

Lemma where_id_none (n : Z) (rows : list fridge_item) :
  ~ In n (map id rows) -> where_id n rows = [].
Proof.
  unfold where_id. induction rows as [|r rows IH]; simpl; [reflexivity|].
  intros H. destruct (has_id n r) eqn:E.
  - unfold has_id in E. apply Z.eqb_eq in E. tauto.
  - apply IH. tauto.
Qed.

Lemma where_id_nil (n : Z) (rows : list fridge_item) :
  where_id n rows = [] -> forall r, In r rows -> has_id n r = false.
Proof.
  unfold where_id. intros E r HIn.
  destruct (has_id n r) eqn:H; [|reflexivity].
  assert (In r (filter (has_id n) rows)) as F by (apply filter_In; tauto).
  rewrite E in F. elim F.
Qed.

Lemma update_no_match (n : Z) (rows : list fridge_item) :
  where_id n rows = [] -> update_where_id n rows = rows.
Proof.
  intros E. unfold update_where_id.
  rewrite <- (map_id rows) at 2. apply map_ext_in. intros r HIn.
  now rewrite (where_id_nil n rows E r HIn).
Qed.

Lemma delete_no_match (n : Z) (rows : list fridge_item) :
  where_id n rows = [] -> delete_where_id n rows = rows.
Proof.
  intros E. unfold delete_where_id.
  induction rows as [|r rows IH]; simpl; [reflexivity|].
  rewrite (where_id_nil n _ E r (or_introl eq_refl)). simpl. f_equal.
  apply IH. unfold where_id in *. simpl in E.
  destruct (has_id n r); [discriminate E | exact E].
Qed.

Lemma where_id_delete (n : Z) (rows : list fridge_item) :
  where_id n (delete_where_id n rows) = [].
Proof.
  unfold where_id, delete_where_id.
  induction rows as [|r rows IH]; simpl; [reflexivity|].
  destruct (has_id n r) eqn:H; simpl; [exact IH|].
  rewrite H. exact IH.
Qed.

(** With distinct ids, [WHERE id = n] selects the one row with id [n]. *)
Lemma where_id_unique (rows : list fridge_item) (r : fridge_item) :
  NoDup (map id rows) -> In r rows -> where_id (id r) rows = [r].
Proof.
  unfold where_id. induction rows as [|x rows IH]; simpl.
  - intros _ [].
  - intros ND HIn. inversion ND as [|? ? Hx ND']; subst.
    destruct HIn as [->|HIn].
    + unfold has_id at 1. rewrite Z.eqb_refl. f_equal.
      now apply where_id_none.
    + destruct (has_id (id r) x) eqn:E.
      * unfold has_id in E. apply Z.eqb_eq in E. elim Hx. rewrite E.
        now apply in_map.
      * now apply IH.
Qed.

Lemma existsb_has_id (n : Z) (rows : list fridge_item) :
  existsb (has_id n) rows = false <-> ~ In n (map id rows).
Proof.
  induction rows as [|r rows IH]; simpl.
  - tauto.
  - rewrite orb_false_iff, IH. unfold has_id. rewrite Z.eqb_neq. tauto.
Qed.

Lemma seq_ahead_fresh (d : db) :
  seq_ahead d -> ~ In (fridge_items_id_seq d) (ids d).
Proof.
  unfold seq_ahead, ids. intros F HIn. apply in_map_iff in HIn.
  destruct HIn as (r & E & HIn). rewrite Forall_forall in F.
  specialize (F r HIn). lia.
Qed.

(** *** ORDER BY *)

Lemma insert_desc_perm (r : fridge_item) (l : list fridge_item) :
  Permutation (r :: l) (insert_desc r l).
Proof.
  induction l as [|x l IH]; simpl.
  - apply Permutation_refl.
  - destruct (created_at x <=? created_at r).
    + apply Permutation_refl.
    + eapply perm_trans; [apply perm_swap|]. now apply perm_skip.
Qed.

Lemma order_by_perm (rows : list fridge_item) :
  Permutation rows (order_by_created_at_desc rows).
Proof.
  unfold order_by_created_at_desc.
  induction rows as [|r rows IH]; simpl.
  - apply perm_nil.
  - eapply perm_trans; [|apply insert_desc_perm]. now apply perm_skip.
Qed.

Lemma insert_desc_sorted (r : fridge_item) (l : list fridge_item) :
  StronglySorted newer_or_same l ->
  StronglySorted newer_or_same (insert_desc r l).
Proof.
  induction 1 as [|x l S IH F]; simpl.
  - repeat constructor.
  - destruct (Z.leb_spec (created_at x) (created_at r)) as [L|L].
    + constructor; [now constructor|]. constructor.
      * unfold newer_or_same. lia.
      * eapply Forall_impl; [|exact F]. unfold newer_or_same.
        intros a Ha. lia.
    + constructor; [exact IH|].
      eapply Permutation_Forall; [apply insert_desc_perm|].
      constructor; [unfold newer_or_same; lia | exact F].
Qed.

Lemma order_by_sorted (rows : list fridge_item) :
  StronglySorted newer_or_same (order_by_created_at_desc rows).
Proof.
  unfold order_by_created_at_desc.
  induction rows as [|r rows IH]; simpl.
  - constructor.
  - now apply insert_desc_sorted.
Qed.

End Statements.

Section TrimTwice.

Lemma trimStart_fixed (c : N) (t : jsstring) :
  is_white_space c = false -> trimStart (c :: t) = c :: t.
Proof. intros H. simpl. now rewrite H. Qed.

Lemma trimStart_idem (s : jsstring) :
  trimStart (trimStart s) = trimStart s.
Proof.
  destruct (trimStart s) as [|c t] eqn:E; [reflexivity|].
  apply trimStart_fixed. now apply trimStart_head in E.
Qed.

Lemma trimStart_snoc (l : jsstring) (c : N) :
  is_white_space c = false -> trimStart (l ++ [c]) = trimStart l ++ [c].
Proof.
  intros H. induction l as [|a l IH]; simpl.
  - now rewrite H.
  - destruct (is_white_space a); [exact IH | reflexivity].
Qed.

Lemma trimEnd_cons (c : N) (t : jsstring) :
  is_white_space c = false -> trimEnd (c :: t) = c :: trimEnd t.
Proof.
  intros H. unfold trimEnd. simpl.
  rewrite (trimStart_snoc _ _ H), rev_app_distr. reflexivity.
Qed.

Lemma trimEnd_idem (s : jsstring) : trimEnd (trimEnd s) = trimEnd s.
Proof.
  unfold trimEnd. now rewrite rev_involutive, trimStart_idem.
Qed.

(** A trimmed string starts with a visible character. *)
Lemma trim_head (s t : jsstring) (c : N) :
  trim s = c :: t -> is_white_space c = false.
Proof.
  unfold trim. destruct (trimStart s) as [|a u] eqn:E.
  - discriminate.
  - pose proof (trimStart_head _ _ _ E) as Ha.
    rewrite (trimEnd_cons a u Ha). intros H. now injection H as <- _.
Qed.

Lemma trim_idem (s : jsstring) : trim (trim s) = trim s.
Proof.
  assert (trimStart (trim s) = trim s) as H.
  { destruct (trim s) as [|c t] eqn:E; [reflexivity|].
    apply trimStart_fixed. now apply trim_head in E. }
  unfold trim at 1. rewrite H. unfold trim. apply trimEnd_idem.
Qed.

Lemma trim_well_kept (s : jsstring) :
  trim s <> [] -> (List.length (trim s) <= 255)%nat -> well_kept (trim s).
Proof.
  intros NE L. split; [apply trim_idem | now split].
Qed.

Lemma where_id_empty_ids (n : Z) (rows : list fridge_item) :
  where_id n rows = [] -> ~ In n (map id rows).
Proof.
  intros E H. apply in_map_iff in H. destruct H as (r & Hr & HIn).
  pose proof (where_id_nil n rows E r HIn) as F.
  unfold has_id in F. apply Z.eqb_neq in F. congruence.
Qed.

End TrimTwice.

(** ** What the engine receives and stores *)

Section Arrival.

Lemma white_space_below (c : N) :
  is_white_space c = true -> (c < 65536)%N.
Proof.
  unfold is_white_space.
  rewrite !orb_true_iff, andb_true_iff, !N.eqb_eq, !N.leb_le. lia.
Qed.

Lemma surrogate_pair_visible (h l : N) :
  is_white_space (surrogate_pair h l) = false.
Proof.
  destruct (is_white_space (surrogate_pair h l)) eqn:W; [|reflexivity].
  apply white_space_below in W. unfold surrogate_pair in W. lia.
Qed.

Lemma characters_head (c : N) (x : jsstring) :
  is_white_space c = false ->
  exists y t, characters (c :: x) = y :: t /\ is_white_space y = false.
Proof.
  intros W. simpl. destruct (is_high_surrogate c).
  - destruct x as [|l x'].
    + now exists 65533%N, [].
    + destruct (is_low_surrogate l).
      * eexists _, _. split; [reflexivity|]. apply surrogate_pair_visible.
      * now eexists 65533%N, _.
  - destruct (is_low_surrogate c).
    + now eexists 65533%N, _.
    + now eexists c, _.
Qed.

Lemma characters_last (n : nat) :
  forall (l : jsstring) (c : N),
    (List.length l <= n)%nat ->
    is_white_space c = false ->
    exists t y, characters (l ++ [c]) = t ++ [y]
                /\ is_white_space y = false.
Proof.
  induction n as [|n IH]; intros l c L W.
  - destruct l as [|a l]; [|simpl in L; lia].
    destruct (characters_head c [] W) as (y & t & E & Wy).
    simpl app. simpl in E. simpl.
    destruct (is_high_surrogate c); [now exists [], 65533%N|].
    destruct (is_low_surrogate c); [now exists [], 65533%N|].
    now exists [], c.
  - destruct l as [|a l]; [apply (IH [] c); [simpl; lia | exact W]|].
    simpl in L.
    assert (forall z, exists t y,
               z :: characters (l ++ [c]) = t ++ [y]
               /\ is_white_space y = false) as Step.
    { intros z. destruct (IH l c) as (t & y & E & Wy); [lia | exact W|].
      exists (z :: t), y. rewrite E. now split. }
    destruct l as [|b l'].
    + clear Step. cbn [app characters].
      destruct (is_high_surrogate a), (is_low_surrogate a),
        (is_low_surrogate c), (is_high_surrogate c);
        try (exists [], (surrogate_pair a c);
             split; [reflexivity | apply surrogate_pair_visible]);
        try (eexists [_], _;
             split; [reflexivity | first [reflexivity | exact W]]).
    + change ((a :: b :: l') ++ [c]) with (a :: b :: (l' ++ [c])).
      change ((b :: l') ++ [c]) with (b :: (l' ++ [c])) in Step.
      destruct (is_high_surrogate a) eqn:Ha.
      * destruct (is_low_surrogate b) eqn:Lb.
        -- destruct (IH l' c) as (t & y & E & Wy);
             [simpl in L; lia | exact W|].
           exists (surrogate_pair a b :: t), y.
           cbn [characters]. rewrite Ha, Lb, E. now split.
        -- destruct (Step 65533%N) as (t & y & E & Wy). exists t, y.
           split; [|exact Wy]. rewrite <- E.
           cbn [characters]. rewrite Ha, Lb. reflexivity.
      * destruct (Step (if is_low_surrogate a then 65533%N else a))
          as (t & y & E & Wy).
        exists t, y. split; [|exact Wy]. rewrite <- E.
        remember (b :: (l' ++ [c])) as rest.
        cbn [characters]. rewrite Ha.
        now destruct (is_low_surrogate a).
Qed.

Lemma trim_visible_ends (s : jsstring) :
  trim s <> [] -> visible_ends (trim s).
Proof.
  intros NE. split.
  - destruct (trim s) as [|c x] eqn:E; [now elim NE|].
    exists c, x. split; [reflexivity|]. now apply trim_head in E.
  - apply (trim_last s NE).
Qed.

Lemma characters_visible_ends (u : jsstring) :
  visible_ends u -> visible_ends (characters u).
Proof.
  intros [(c & x & -> & Wc) (x' & c' & E & Wc')]. split.
  - destruct (characters_head c x Wc) as (y & t & Ey & Wy). now exists y, t.
  - rewrite E.
    apply (characters_last (List.length x') x' c' (Nat.le_refl _) Wc').
Qed.

Lemma visible_ends_trim (t : jsstring) : visible_ends t -> trim t = t.
Proof.
  intros [(c & x & E & Wc) (x' & c' & E' & Wc')].
  unfold trim. rewrite E at 1. rewrite (trimStart_fixed c x Wc), <- E.
  unfold trimEnd. rewrite E', rev_app_distr. simpl.
  rewrite Wc'. simpl. now rewrite rev_involutive.
Qed.

Lemma visible_ends_not_nil (t : jsstring) : visible_ends t -> t <> [].
Proof. intros [(c & x & -> & _) _]. discriminate. Qed.

Lemma visible_ends_not_blank (t : jsstring) :
  visible_ends t -> blank t = false.
Proof.
  intros [(c & x & -> & Wc) _]. unfold blank. simpl. now rewrite Wc.
Qed.

(** Text with visible ends is stored as it is when it fits, and
    refused when it does not: its last character is not a space. *)
Lemma varchar_visible (n : nat) (t : jsstring) :
  visible_ends t ->
  varchar n t =
    if (List.length t <=? n)%nat then inr t
    else inl (string_data_right_truncation n).
Proof.
  intros [_ (x & c & E & Wc)]. unfold varchar.
  destruct (List.length t <=? n)%nat eqn:L; [reflexivity|].
  apply Nat.leb_gt in L. rewrite E in *.
  rewrite length_app in L. simpl in L.
  assert (N.eqb 32 c = false) as Hsp.
  { destruct (N.eqb_spec 32 c) as [<-|]; [discriminate Wc | reflexivity]. }
  rewrite skipn_snoc by lia. rewrite forallb_app. cbn [forallb].
  rewrite Hsp. now rewrite andb_false_r.
Qed.

Lemma characters_plain (s : jsstring) :
  plain_text s = true -> characters s = s.
Proof.
  unfold plain_text. induction s as [|c s IH]; [reflexivity|].
  cbn [forallb]. rewrite !andb_true_iff, !negb_true_iff.
  intros [[[[_ _] H] Lo] P]. cbn [characters]. rewrite H, Lo.
  now rewrite (IH P).
Qed.

Lemma textin_plain (s : jsstring) :
  plain_text s = true -> textin s = inr s.
Proof.
  intros P. unfold textin. rewrite (characters_plain s P).
  assert (existsb (N.eqb 0) s = false) as ->; [|reflexivity].
  unfold plain_text in P. induction s as [|c s IH]; [reflexivity|].
  cbn [forallb] in P. rewrite !andb_true_iff, !negb_true_iff in P.
  destruct P as [[[[Z _] _] _] P]. cbn [existsb].
  rewrite (N.eqb_sym 0 c), Z. now apply IH.
Qed.

(** The INSERT of a trimmed name that is not empty: it is refused with
    the database untouched, or refused by the primary key after an id
    was drawn, or it appends one row, whose name is the text as the
    engine received it. *)
Lemma insert_trimmed (now : Z) (s : jsstring) (v : defined) (d : db) :
  trim s <> [] ->
  (exists e, query now (INSERT_RETURNING (trim s) v) d = (inl e, d))
  \/ (query now (INSERT_RETURNING (trim s) v) d
      = (inl (unique_violation (fridge_items_id_seq d)),
         {| fridge_items := fridge_items d;
            fridge_items_id_seq := fridge_items_id_seq d + 1 |})
      /\ In (fridge_items_id_seq d) (ids d))
  \/ (exists flag,
        query now (INSERT_RETURNING (trim s) v) d
        = (inr [{| id := fridge_items_id_seq d;
                   name := characters (trim s);
                   is_in_fridge := flag; created_at := now |}],
           {| fridge_items :=
                fridge_items d
                  ++ [{| id := fridge_items_id_seq d;
                         name := characters (trim s);
                         is_in_fridge := flag; created_at := now |}];
              fridge_items_id_seq := fridge_items_id_seq d + 1 |})
        /\ bind_boolean v = inr flag
        /\ textin (trim s) = inr (characters (trim s))
        /\ well_kept (characters (trim s))
        /\ fridge_items_id_seq d <= int4_max
        /\ ~ In (fridge_items_id_seq d) (ids d)).
Proof.
  intros NE.
  pose proof (characters_visible_ends _ (trim_visible_ends s NE)) as V.
  unfold query, textin.
  destruct (existsb (N.eqb 0) (characters (trim s))) eqn:Z;
    [left; now eexists|].
  destruct (bind_boolean v) as [e|flag] eqn:B; [left; now eexists|].
  rewrite (varchar_visible 255 _ V).
  destruct (List.length (characters (trim s)) <=? 255)%nat eqn:L;
    [|left; now eexists].
  destruct (int4_max <? fridge_items_id_seq d) eqn:M;
    [left; now eexists|].
  apply Z.ltb_ge in M.
  destruct (existsb (has_id (fridge_items_id_seq d)) (fridge_items d))
    eqn:X.
  - right. left. split; [reflexivity|].
    destruct (in_dec Z.eq_dec (fridge_items_id_seq d) (ids d)) as [I|I];
      [exact I|].
    apply existsb_has_id in I. unfold ids in *. congruence.
  - right. right. exists flag. repeat split.
    + now apply visible_ends_trim.
    + now apply visible_ends_not_nil.
    + now apply Nat.leb_le.
    + exact M.
    + now apply existsb_has_id.
Qed.

Lemma well_kept_not_blank (t : jsstring) : well_kept t -> blank t = false.
Proof.
  intros (T & NE & _). destruct (blank t) eqn:B; [|reflexivity].
  apply trim_blank in B. congruence.
Qed.

End Arrival.

(** ** The handlers, case by case *)

Section Handlers.

Variable now : Z.

Lemma patch_toggle_selected (p : jsstring) (n : Z) (d : db) :
  denotes p n ->
  patch_toggle now p d =
    (match where_id n (fridge_items d) with
     | [] => item_not_found
     | r :: _ => res 200 (row_json (set_not_is_in_fridge r))
     end,
     {| fridge_items := update_where_id n (fridge_items d);
        fridge_items_id_seq := fridge_items_id_seq d |}).
Proof.
  unfold denotes. intros E.
  unfold patch_toggle, try_catch, bind, pool_query, query. rewrite E.
  destruct (where_id n (fridge_items d)); reflexivity.
Qed.

Lemma delete_item_selected (p : jsstring) (n : Z) (d : db) :
  denotes p n ->
  delete_item now p d =
    (match where_id n (fridge_items d) with
     | [] => item_not_found
     | r :: _ => res 200 (deleted_json "Item deleted" r)
     end,
     {| fridge_items := delete_where_id n (fridge_items d);
        fridge_items_id_seq := fridge_items_id_seq d |}).
Proof.
  unfold denotes. intros E.
  unfold delete_item, try_catch, bind, pool_query, query. rewrite E.
  destruct (where_id n (fridge_items d)); reflexivity.
Qed.

Lemma patch_toggle_rejected (p : jsstring) (e : Pg.error) (d : db) :
  int4in p = inl e ->
  patch_toggle now p d = (database_error (DatabaseError e), d).
Proof.
  intros E.
  unfold patch_toggle, try_catch, bind, pool_query, query. now rewrite E.
Qed.

Lemma delete_item_rejected (p : jsstring) (e : Pg.error) (d : db) :
  int4in p = inl e ->
  delete_item now p d = (database_error (DatabaseError e), d).
Proof.
  intros E.
  unfold delete_item, try_catch, bind, pool_query, query. now rewrite E.
Qed.

Lemma get_items_eq (d : db) :
  get_items now d =
    (res 200 (rows_json (order_by_created_at_desc (fridge_items d))), d).
Proof. reflexivity. Qed.

(** POST with a name that survives trimming: what the INSERT does. *)
Lemma post_items_insert (b : post_body) (s : jsstring) (d : db) :
  body_name b = Def (JString s) ->
  trim s <> [] ->
  post_items now b d =
    match query now
            (INSERT_RETURNING
               (trim s)
               (nullish_coalescing (body_isInFridge b) (JBool true))) d
    with
    | (inl e, d') => (database_error (DatabaseError e), d')
    | (inr [], d') =>
        (database_error (TypeError "Cannot read properties of undefined"),
         d')
    | (inr (r :: _), d') => (res 201 (row_json r), d')
    end.
Proof.
  intros E NE. unfold post_items, try_catch. rewrite E.
  destruct (trim s) as [|c t] eqn:T; [now elim NE|].
  unfold bind, pool_query.
  destruct (query now _ d) as [[e|[|r rows]] d']; reflexivity.
Qed.

Lemma post_items_refused (b : post_body) (d : db) :
  name_absent_or_blank (body_name b) = true ->
  post_items now b d = (name_required, d).
Proof.
  unfold post_items, try_catch. 
  destruct (body_name b) as [| |[x|x|s| |]]; simpl;
    try discriminate; try reflexivity.
  intros B. apply trim_blank in B. now rewrite B.
Qed.

Lemma record_eta (d : db) :
  {| fridge_items := fridge_items d;
     fridge_items_id_seq := fridge_items_id_seq d |} = d.
Proof. now destruct d. Qed.

End Handlers.

(** ** Properties of the request/response contract *)

Section Creation.

Lemma seq_ahead_empty : seq_ahead empty_db.
Proof. constructor. Qed.

Lemma seq_ahead_init_sql (now : Z) : seq_ahead (init_sql now).
Proof. unfold seq_ahead. simpl. repeat constructor. Qed.

(** The INSERT of a trimmed name that the engine keeps as sent and
    that fits, with a boolean flag, into a table whose sequence is ahead
    and not used up. *)
Lemma insert_ok (now : Z) (d : db) (s : jsstring) (flag : bool) :
  seq_ahead d ->
  fridge_items_id_seq d <= int4_max ->
  trim s <> [] ->
  plain_text (trim s) = true ->
  (List.length (trim s) <= 255)%nat ->
  let r := {| id := fridge_items_id_seq d; name := trim s;
              is_in_fridge := flag; created_at := now |} in
  query now (INSERT_RETURNING (trim s) (JBool flag)) d =
    (inr [r], {| fridge_items := fridge_items d ++ [r];
                 fridge_items_id_seq := fridge_items_id_seq d + 1 |}).
Proof.
  intros A M NE P L r. unfold query. rewrite (textin_plain _ P).
  simpl bind_boolean. cbv iota.
  rewrite (varchar_trim 255 s NE).
  apply Nat.leb_le in L. rewrite L.
  apply Z.ltb_ge in M. rewrite M.
  apply seq_ahead_fresh in A. apply existsb_has_id in A.
  unfold ids in A. now rewrite A.
Qed.

End Creation.

(** C1 (as amended).  POST /api/items with a string name that is not
    empty after trimming, has at most 255 characters once trimmed and
    holds neither U+0000 nor a surrogate outside a pair, and with
    [isInFridge] a boolean, absent or null, into a table whose id
    sequence is ahead of the stored ids and has not passed 2147483647:
    exactly one row is appended, with a fresh id, the trimmed name and
    the supplied flag (true when absent or null); the answer is 201
    with that row; and the listing of a following GET /api/items is the
    previous listing plus exactly that row. *)
Theorem post_creates_one_row
  (now now' : Z) (d : db) (b : post_body) (s : jsstring) (flag : bool) :
  seq_ahead d ->
  fridge_items_id_seq d <= int4_max ->
  body_name b = Def (JString s) ->
  trim s <> [] ->
  plain_text (trim s) = true ->
  (List.length (trim s) <= 255)%nat ->
  flag_of (body_isInFridge b) = Some flag ->
  let r := {| id := fridge_items_id_seq d; name := trim s;
              is_in_fridge := flag; created_at := now |} in
  let d' := {| fridge_items := fridge_items d ++ [r];
               fridge_items_id_seq := fridge_items_id_seq d + 1 |} in
  handle now (POST_items b) d = (res 201 (row_json r), d')
  /\ ~ In (id r) (ids d)
  /\ exists before after,
       handle now' GET_items d = (res 200 (rows_json before), d)
       /\ handle now' GET_items d' = (res 200 (rows_json after), d')
       /\ Permutation after (r :: before).
Proof.
  intros A M E NE P L F r d'. split; [|split].
  - simpl. rewrite (post_items_insert now b s d E NE).
    assert (nullish_coalescing (body_isInFridge b) (JBool true) = JBool flag)
      as ->.
    { destruct (body_isInFridge b) as [| |[x|x|x| |]]; simpl in *;
        congruence. }
    now rewrite (insert_ok now d s flag A M NE P L).
  - now apply seq_ahead_fresh.
  - exists (order_by_created_at_desc (fridge_items d)),
           (order_by_created_at_desc (fridge_items d')).
    split; [reflexivity|]. split; [reflexivity|].
    eapply perm_trans; [apply Permutation_sym, order_by_perm|].
    simpl. eapply perm_trans; [apply Permutation_app_comm|]. simpl.
    apply perm_skip. apply order_by_perm.
Qed.

Lemma post_creates_one_row_witness :
  let b := {| body_name := Def (JString (lit "  Milk "));
              body_isInFridge := Def (JBool false) |} in
  let r := {| id := 7; name := lit "Milk"; is_in_fridge := false;
              created_at := 10 |} in
  handle 10 (POST_items b) (init_sql 0) =
    (res 201 (row_json r),
     {| fridge_items := fridge_items (init_sql 0) ++ [r];
        fridge_items_id_seq := 8 |}).
Proof.
  intros b r.
  refine (proj1 (post_creates_one_row 10 11 (init_sql 0) b (lit "  Milk ")
                   false (seq_ahead_init_sql 0) _ eq_refl _ _ _ eq_refl)).
  - vm_compute. discriminate.
  - vm_compute. discriminate.
  - reflexivity.
  - vm_compute. lia.
Defined.

(** C1 (as stated) fails.  Each of these names is a string that is not
    empty after trimming.  A name of 256 letters is refused by the
    column [VARCHAR(255)]: the answer is 500 and nothing changes.  An
    [isInFridge] that is not a boolean ("maybe") is refused by the
    engine: 500, nothing changes.  A name holding U+0000 is refused by
    the engine: 500, nothing changes.  A name holding a surrogate
    without its partner is stored with U+FFFD in its place: the answer
    is 201, but the name of the row is not the trimmed input.  And
    when the sequence has passed 2147483647 no id is left: 500. *)
Lemma post_valid_name_not_created :
  let long := repeat 97%N 256 in
  let post (n : jsstring) (f : value) :=
    handle 0 (POST_items {| body_name := Def (JString n);
                            body_isInFridge := f |}) in
  let refused (e : Pg.error) :=
    res 500 (error_json "Database error" (Some (DatabaseError e))) in
  (trim long <> []
   /\ post long undefined empty_db
      = (refused (string_data_right_truncation 255), empty_db))
  /\ (trim (lit "Milk") <> []
      /\ post (lit "Milk") (Def (JString (lit "maybe"))) empty_db
         = (refused (invalid_text_representation "boolean"), empty_db))
  /\ (trim [97; 0; 98]%N <> []
      /\ post [97; 0; 98]%N undefined empty_db
         = (refused character_not_in_repertoire, empty_db))
  /\ (trim [97; 55296]%N = [97; 55296]%N
      /\ fst (post [97; 55296]%N undefined empty_db)
         = res 201 (row_json {| id := 1; name := [97; 65533]%N;
                                is_in_fridge := true; created_at := 0 |}))
  /\ (post (lit "Milk") undefined
        {| fridge_items := []; fridge_items_id_seq := 2147483648 |}
      = (refused sequence_generator_limit_exceeded,
         {| fridge_items := []; fridge_items_id_seq := 2147483648 |})).
Proof.
  repeat split; try (vm_compute; discriminate); vm_compute; reflexivity.
Qed.

(** C2.  POST /api/items whose name is the empty string, made of white
    space only, or missing from the body (or null) answers 400 with
    [{error: 'Name is required'}], and the database is left as it was. *)
Theorem post_without_name_refused (now : Z) (d : db) (b : post_body) :
  name_absent_or_blank (body_name b) = true ->
  handle now (POST_items b) d
  = (res 400 (error_json "Name is required" None), d).
Proof.
  intros H. simpl. now apply post_items_refused.
Qed.

Lemma post_without_name_refused_witness :
  handle 3 (POST_items {| body_name := Def (JString (lit "   "));
                          body_isInFridge := Def (JBool true) |}) (init_sql 0)
  = (res 400 (error_json "Name is required" None), init_sql 0)
  /\ handle 3 (POST_items {| body_name := undefined;
                             body_isInFridge := undefined |}) empty_db
     = (res 400 (error_json "Name is required" None), empty_db).
Proof.
  split.
  - apply (post_without_name_refused 3 (init_sql 0)). reflexivity.
  - apply (post_without_name_refused 3 empty_db). reflexivity.
Defined.

Section Toggle.

Lemma nth_error_update (n : Z) (rows : list fridge_item) (i : nat)
      (r : fridge_item) :
  nth_error rows i = Some r ->
  nth_error (update_where_id n rows) i =
    Some (if has_id n r then set_not_is_in_fridge r else r).
Proof.
  intros H. unfold update_where_id.
  rewrite nth_error_map, H. reflexivity.
Qed.

Lemma has_id_self (r : fridge_item) : has_id (id r) r = true.
Proof. unfold has_id. apply Z.eqb_refl. Qed.

Lemma where_id_sound (n : Z) (rows : list fridge_item) (x : fridge_item)
      (l : list fridge_item) :
  where_id n rows = x :: l -> In x rows /\ id x = n.
Proof.
  intros E. assert (In x (where_id n rows)) as H by (rewrite E; now left).
  apply filter_In in H. destruct H as [H1 H2]. split; [exact H1|].
  now apply Z.eqb_eq.
Qed.

End Toggle.

(** C3.  For a row stored at any position of the table, PATCH
    /api/items/:id/toggle with that row's id answers 200 with a row of
    that id and leaves at that position the row with [is_in_fridge]
    negated, which differs from the original flag; a second toggle of
    the same id answers 200 again and brings the whole table back to
    what it was. *)
Theorem toggle_flips_and_twice_restores
  (now now' : Z) (d : db) (p : jsstring) (i : nat) (r : fridge_item) :
  nth_error (fridge_items d) i = Some r ->
  denotes p (id r) ->
  let d1 := snd (handle now (PATCH_toggle p) d) in
  let d2 := snd (handle now' (PATCH_toggle p) d1) in
  (exists r1, fst (handle now (PATCH_toggle p) d) = res 200 (row_json r1)
              /\ id r1 = id r /\ In r1 (fridge_items d1))
  /\ (exists r', nth_error (fridge_items d1) i = Some r'
                 /\ is_in_fridge r' = negb (is_in_fridge r)
                 /\ is_in_fridge r' <> is_in_fridge r)
  /\ status (fst (handle now' (PATCH_toggle p) d1)) = 200
  /\ nth_error (fridge_items d2) i = Some r
  /\ d2 = d.
Proof.
  intros Hnth Hp d1 d2. subst d2 d1. simpl handle.
  rewrite (patch_toggle_selected now p (id r) d Hp). simpl fst. simpl snd.
  rewrite (patch_toggle_selected now' p (id r) _ Hp). simpl.
  pose proof (nth_error_In _ _ Hnth) as HIn.
  pose proof (where_id_In (id r) _ r HIn eq_refl) as NE.
  rewrite where_id_update, update_twice, record_eta.
  destruct (where_id (id r) (fridge_items d)) as [|x l] eqn:W;
    [now elim NE|].
  destruct (where_id_sound _ _ _ _ W) as [Hx Hid].
  repeat split.
  - exists (set_not_is_in_fridge x). repeat split.
    + exact Hid.
    + unfold update_where_id. apply in_map_iff. exists x.
      split; [|exact Hx]. unfold has_id. rewrite Hid, Z.eqb_refl.
      reflexivity.
  - exists (set_not_is_in_fridge r). repeat split.
    + rewrite (nth_error_update _ _ _ _ Hnth). now rewrite has_id_self.
    + simpl. now destruct (is_in_fridge r).
  - exact Hnth.
Qed.

Lemma toggle_flips_and_twice_restores_witness :
  let d := init_sql 0 in
  let p := lit "3" in
  let d1 := snd (handle 1 (PATCH_toggle p) d) in
  let d2 := snd (handle 2 (PATCH_toggle p) d1) in
  (nth_error (fridge_items d) 2 = Some {| id := 3;
                                          name := [1061; 1083; 1077; 1073]%N;
                                          is_in_fridge := false;
                                          created_at := 0 |}
   /\ denotes p 3)
  /\ nth_error (fridge_items d2) 2 = nth_error (fridge_items d) 2
  /\ d2 = d.
Proof.
  intros d p d1 d2. split; [split; reflexivity|].
  pose proof (toggle_flips_and_twice_restores 1 2 d p 2
                {| id := 3; name := [1061; 1083; 1077; 1073]%N;
                   is_in_fridge := false; created_at := 0 |}
                eq_refl eq_refl) as H.
  destruct H as (_ & _ & _ & H4 & H5). split; [exact H4 | exact H5].
Defined.

(** C4 (as amended).  PATCH /api/items/:id/toggle and DELETE
    /api/items/:id with an id that is a well-formed integer and is the
    id of no row answer 404 with [{error: 'Item not found'}] and leave
    the database exactly as it was. *)
Theorem unknown_id_not_found (now : Z) (d : db) (p : jsstring) (n : Z) :
  denotes p n ->
  ~ In n (ids d) ->
  handle now (PATCH_toggle p) d
  = (res 404 (error_json "Item not found" None), d)
  /\ handle now (DELETE_item p) d
     = (res 404 (error_json "Item not found" None), d).
Proof.
  intros Hp Hn. apply where_id_none in Hn. simpl handle.
  rewrite (patch_toggle_selected now p n d Hp).
  rewrite (delete_item_selected now p n d Hp).
  rewrite Hn, (update_no_match n _ Hn), (delete_no_match n _ Hn), record_eta.
  split; reflexivity.
Qed.

Lemma unknown_id_not_found_witness :
  handle 5 (PATCH_toggle (lit "42")) (init_sql 0)
  = (res 404 (error_json "Item not found" None), init_sql 0)
  /\ handle 5 (DELETE_item (lit "42")) (init_sql 0)
     = (res 404 (error_json "Item not found" None), init_sql 0).
Proof.
  apply (unknown_id_not_found 5 (init_sql 0) (lit "42") 42).
  - reflexivity.
  - vm_compute. intuition discriminate.
Defined.

(** C4 (as stated) fails: the id [abc] selects no row of the table,
    yet both routes answer 500, not 404. *)
Lemma unmatched_id_not_always_404 :
  let p := lit "abc" in
  let d := init_sql 0 in
  (forall r, In r (fridge_items d) -> selects p r = false)
  /\ status (fst (handle 0 (PATCH_toggle p) d)) = 500
  /\ status (fst (handle 0 (DELETE_item p) d)) = 500
  /\ status (fst (handle 0 (PATCH_toggle p) d)) <> 404
  /\ status (fst (handle 0 (DELETE_item p) d)) <> 404.
Proof.
  repeat split; try reflexivity; vm_compute; discriminate.
Qed.

(** C5.  In a table with distinct ids, DELETE /api/items/:id with the
    id of a stored row answers 200 with [{message: 'Item deleted',
    deletedItem: row}]; the listing of a following GET /api/items holds
    neither that row nor any row of that id; and a second DELETE of the
    same id answers 404 and changes nothing. *)
Theorem delete_removes_row
  (now now' : Z) (d : db) (p : jsstring) (r : fridge_item) :
  NoDup (ids d) ->
  In r (fridge_items d) ->
  denotes p (id r) ->
  let d1 := snd (handle now (DELETE_item p) d) in
  fst (handle now (DELETE_item p) d)
  = res 200 (deleted_json "Item deleted" r)
  /\ (exists listing,
        handle now' GET_items d1 = (res 200 (rows_json listing), d1)
        /\ ~ In r listing
        /\ ~ In (id r) (map id listing)
        /\ Permutation (delete_where_id (id r) (fridge_items d)) listing)
  /\ handle now' (DELETE_item p) d1
     = (res 404 (error_json "Item not found" None), d1).
Proof.
  intros ND HIn Hp d1. subst d1. simpl handle.
  rewrite (delete_item_selected now p (id r) d Hp). simpl fst. simpl snd.
  rewrite (delete_item_selected now' p (id r) _ Hp). simpl fridge_items.
  rewrite (where_id_unique _ r ND HIn), where_id_delete.
  rewrite (delete_no_match _ _ (where_id_delete (id r) (fridge_items d))).
  assert (forall x, In x (delete_where_id (id r) (fridge_items d)) ->
                    id x <> id r) as Hgone.
  { intros x Hx. unfold delete_where_id in Hx. apply filter_In in Hx.
    destruct Hx as [_ Hx]. unfold has_id in Hx.
    apply negb_true_iff, Z.eqb_neq in Hx. exact Hx. }
  split; [reflexivity|]. split; [|reflexivity].
  eexists. split; [reflexivity|].
  pose proof (order_by_perm (delete_where_id (id r) (fridge_items d))) as P.
  repeat split.
  - intros H. apply (Permutation_in _ (Permutation_sym P)) in H.
    now apply Hgone in H.
  - intros H. apply in_map_iff in H. destruct H as (x & E & H).
    apply (Permutation_in _ (Permutation_sym P)) in H.
    now apply Hgone in H.
  - exact P.
Qed.

Lemma delete_removes_row_witness :
  let d := init_sql 0 in
  let r := {| id := 4; name := [1057; 1099; 1088]%N; is_in_fridge := true;
              created_at := 0 |} in
  fst (handle 1 (DELETE_item (lit "4")) d)
  = res 200 (deleted_json "Item deleted" r).
Proof.
  intros d r.
  refine (proj1 (delete_removes_row 1 2 d (lit "4") r _ _ eq_refl)).
  - vm_compute. repeat constructor; simpl; intuition discriminate.
  - vm_compute. tauto.
Defined.

(** C10.  PATCH /api/items/:id/toggle and DELETE /api/items/:id with an
    id that the engine does not accept as an integer: the raw string
    goes to the statement as its parameter, the rejection is caught,
    and the answer is 500 with [{error: 'Database error', details}]
    carrying the engine's error, not 404; the database is unchanged. *)
Theorem malformed_id_is_database_error
  (now : Z) (d : db) (p : jsstring) (e : Pg.error) :
  int4in p = inl e ->
  handle now (PATCH_toggle p) d
  = (res 500 (error_json "Database error" (Some (DatabaseError e))), d)
  /\ handle now (DELETE_item p) d
     = (res 500 (error_json "Database error" (Some (DatabaseError e))), d)
  /\ status (fst (handle now (PATCH_toggle p) d)) <> 404
  /\ status (fst (handle now (DELETE_item p) d)) <> 404.
Proof.
  intros E. simpl handle.
  rewrite (patch_toggle_rejected now p e d E).
  rewrite (delete_item_rejected now p e d E).
  repeat split; simpl; discriminate.
Qed.

Lemma malformed_id_is_database_error_witness :
  int4in (lit "abc") = inl (invalid_text_representation "integer")
  /\ handle 9 (PATCH_toggle (lit "abc")) (init_sql 0)
     = (res 500 (error_json "Database error"
                   (Some (DatabaseError
                            (invalid_text_representation "integer")))),
        init_sql 0).
Proof.
  split; [reflexivity|].
  apply (malformed_id_is_database_error 9 (init_sql 0) (lit "abc")
           (invalid_text_representation "integer")).
  reflexivity.
Defined.

Section Listing.

(** Rows stored newest first are listed in their storage order. *)
Lemma order_by_sorted_id (l : list fridge_item) :
  StronglySorted newer_or_same l -> order_by_created_at_desc l = l.
Proof.
  unfold order_by_created_at_desc.
  induction 1 as [|r l S IH F]; simpl; [reflexivity|].
  rewrite IH. destruct l as [|x l']; simpl; [reflexivity|].
  inversion F as [|? ? Hx _]; subst. unfold newer_or_same in Hx.
  apply Z.leb_le in Hx. now rewrite Hx.
Qed.

End Listing.

(** C6.  In every state GET /api/items answers 200 with a listing that
    holds every stored row exactly once (a permutation of the table)
    and is sorted by [created_at], newest first; it leaves the database
    as it was.  The order among rows of equal [created_at] is not fixed
    by the rows themselves: every newest-first arrangement of the rows
    is the listing of some table that stores the same rows. *)
Theorem get_lists_rows_newest_first (now : Z) (d : db) :
  exists listing,
    handle now GET_items d = (res 200 (rows_json listing), d)
    /\ Permutation (fridge_items d) listing
    /\ StronglySorted newer_or_same listing
    /\ forall l,
         Permutation (fridge_items d) l ->
         StronglySorted newer_or_same l ->
         exists d',
           Permutation (fridge_items d') (fridge_items d)
           /\ fst (handle now GET_items d') = res 200 (rows_json l).
Proof.
  exists (order_by_created_at_desc (fridge_items d)).
  split; [reflexivity|]. split; [apply order_by_perm|].
  split; [apply order_by_sorted|].
  intros l P S.
  exists {| fridge_items := l;
            fridge_items_id_seq := fridge_items_id_seq d |}.
  split; [now apply Permutation_sym|].
  simpl. now rewrite (order_by_sorted_id l S).
Qed.

(** Two tables with the same two rows of equal [created_at], stored in
    either order, are listed differently. *)
Example ties_follow_storage_order :
  let a := {| id := 1; name := lit "a"; is_in_fridge := true;
              created_at := 0 |} in
  let b := {| id := 2; name := lit "b"; is_in_fridge := true;
              created_at := 0 |} in
  fst (handle 1 GET_items {| fridge_items := [a; b];
                             fridge_items_id_seq := 3 |})
  = res 200 (rows_json [a; b])
  /\ fst (handle 1 GET_items {| fridge_items := [b; a];
                                fridge_items_id_seq := 3 |})
     = res 200 (rows_json [b; a]).
Proof. split; reflexivity. Qed.

Section Effects.

Variable now : Z.

Lemma patch_toggle_rows (p : jsstring) (d : db) :
  fridge_items (snd (patch_toggle now p d)) =
    match int4in p with
    | inr n => update_where_id n (fridge_items d)
    | inl _ => fridge_items d
    end.
Proof.
  destruct (int4in p) as [e|n] eqn:E.
  - now rewrite (patch_toggle_rejected now p e d E).
  - now rewrite (patch_toggle_selected now p n d E).
Qed.

Lemma delete_item_rows (p : jsstring) (d : db) :
  fridge_items (snd (delete_item now p d)) =
    match int4in p with
    | inr n => delete_where_id n (fridge_items d)
    | inl _ => fridge_items d
    end.
Proof.
  destruct (int4in p) as [e|n] eqn:E.
  - now rewrite (delete_item_rejected now p e d E).
  - now rewrite (delete_item_selected now p n d E).
Qed.

(** POST either leaves the rows alone or appends one row, with a
    name that is not blank and the id drawn from the sequence, which
    no stored row has. *)
Lemma post_items_rows (b : post_body) (d : db) :
  fridge_items (snd (post_items now b d)) = fridge_items d
  \/ exists r,
       fridge_items (snd (post_items now b d)) = fridge_items d ++ [r]
       /\ blank (name r) = false
       /\ id r = fridge_items_id_seq d
       /\ ~ In (id r) (ids d).
Proof.
  destruct (name_absent_or_blank (body_name b)) eqn:B.
  - left. now rewrite (post_items_refused now b d B).
  - destruct (body_name b) as [| |[x|x|s| |]] eqn:E;
      try discriminate B; try (left; unfold post_items, try_catch;
                               rewrite E; reflexivity).
    simpl in B.
    assert (trim s <> []) as NE.
    { intros T. apply trim_blank in T. congruence. }
    rewrite (post_items_insert now b s d E NE).
    destruct (insert_trimmed
                now s (nullish_coalescing (body_isInFridge b) (JBool true))
                d NE)
      as [(e & Q)|[(Q & _)|(flag & Q & _ & _ & K & _ & Fr)]]; rewrite Q.
    + now left.
    + now left.
    + right. eexists. split; [reflexivity|]. simpl.
      split; [now apply well_kept_not_blank|]. now split.
Qed.

Lemma Forall2_update (p : jsstring) (n : Z) (rows : list fridge_item) :
  int4in p = inr n ->
  Forall2 (toggle_effect p) rows (update_where_id n rows).
Proof.
  intros E. unfold toggle_effect, selects. rewrite E.
  induction rows as [|r rows IH]; simpl; constructor; [|exact IH].
  destruct (has_id n r); simpl; tauto.
Qed.

Lemma Forall2_same (p : jsstring) (e : Pg.error)
      (rows : list fridge_item) :
  int4in p = inl e ->
  Forall2 (toggle_effect p) rows rows.
Proof.
  intros E. unfold toggle_effect, selects. rewrite E.
  induction rows as [|r rows IH]; constructor; [tauto | exact IH].
Qed.

Lemma filter_all (rows : list fridge_item) :
  filter (fun _ => true) rows = rows.
Proof.
  induction rows as [|r rows IH]; simpl; [reflexivity | now rewrite IH].
Qed.

End Effects.

(** C7.  What each request does to the rows it finds.  PATCH
    /api/items/:id/toggle keeps every row in place with its id, name
    and [created_at], negates [is_in_fridge] of the rows its id selects
    and leaves the flag of every other row as it is; POST only appends
    (at most one row); DELETE only removes the rows its id selects; the
    other routes leave the table as it is.  So no request but the
    toggle changes a field of a stored row. *)
Theorem only_toggle_changes_a_row (now : Z) (rq : request) (d : db) :
  row_effect rq (fridge_items d) (fridge_items (snd (handle now rq d))).
Proof.
  destruct rq as [| |b|p|p|]; simpl; try reflexivity.
  - destruct (post_items_rows now b d) as [E|(r & E & _)]; rewrite E.
    + exists []. split; [now rewrite app_nil_r | simpl; lia].
    + exists [r]. split; [reflexivity | simpl; lia].
  - rewrite patch_toggle_rows. destruct (int4in p) as [e|n] eqn:E.
    + now apply (Forall2_same p e).
    + now apply Forall2_update.
  - rewrite delete_item_rows. unfold selects.
    destruct (int4in p) as [e|n] eqn:E.
    + simpl. now rewrite filter_all.
    + reflexivity.
Qed.

Section Invariant.

Lemma ids_update (n : Z) (rows : list fridge_item) :
  map id (update_where_id n rows) = map id rows.
Proof.
  unfold update_where_id. rewrite map_map. apply map_ext.
  intros r. now destruct (has_id n r).
Qed.

Lemma names_update (n : Z) (rows : list fridge_item) :
  Forall (fun r => blank (name r) = false) rows ->
  Forall (fun r => blank (name r) = false) (update_where_id n rows).
Proof.
  unfold update_where_id. intros F. apply Forall_map.
  eapply Forall_impl; [|exact F]. intros r Hr.
  now destruct (has_id n r).
Qed.

Lemma NoDup_ids_filter (f : fridge_item -> bool)
      (rows : list fridge_item) :
  NoDup (map id rows) -> NoDup (map id (filter f rows)).
Proof.
  induction rows as [|r rows IH]; simpl; [trivial|].
  intros ND. inversion ND as [|? ? Hr ND']; subst.
  destruct (f r); simpl; [|now apply IH].
  constructor; [|now apply IH].
  intros H. apply Hr. apply in_map_iff in H.
  destruct H as (x & E & H). apply filter_In in H.
  apply in_map_iff. exists x. tauto.
Qed.

Lemma Forall_filter (P : fridge_item -> Prop) (f : fridge_item -> bool)
      (rows : list fridge_item) :
  Forall P rows -> Forall P (filter f rows).
Proof.
  rewrite !Forall_forall. intros F x H. apply filter_In in H.
  apply F. tauto.
Qed.

(** Every request keeps the invariant. *)
Lemma handle_invariant (now : Z) (rq : request) (d : db) :
  invariant d -> invariant (snd (handle now rq d)).
Proof.
  unfold invariant, ids. intros [Hn Hi].
  destruct rq as [| |b|p|p|]; simpl; try tauto.
  - destruct (post_items_rows now b d) as [E|(r & E & B & _ & Fr)];
      rewrite E; [tauto|].
    split.
    + apply Forall_app. split; [exact Hn | now constructor].
    + rewrite map_app. simpl.
      apply NoDup_app; [exact Hi | repeat constructor; intros [] | ].
      intros i H [<-|[]]. now apply Fr.
  - rewrite patch_toggle_rows. destruct (int4in p); [tauto|].
    rewrite ids_update. split; [now apply names_update | exact Hi].
  - rewrite delete_item_rows. destruct (int4in p); [tauto|].
    split; [now apply Forall_filter | now apply NoDup_ids_filter].
Qed.

Lemma invariant_empty : invariant empty_db.
Proof. split; constructor. Qed.

Lemma invariant_init_sql (now : Z) : invariant (init_sql now).
Proof.
  split.
  - repeat constructor.
  - unfold ids. simpl. repeat constructor; simpl; intuition discriminate.
Qed.

(** *** The sequence stays ahead *)

Lemma seq_ahead_step (rows : list fridge_item) (n m : Z) :
  n <= m ->
  Forall (fun r => id r < n) rows -> Forall (fun r => id r < m) rows.
Proof.
  intros L F. eapply Forall_impl; [|exact F]. intros r Hr. simpl in Hr.
  lia.
Qed.

Lemma post_items_seq_ahead (now : Z) (b : post_body) (d : db) :
  seq_ahead d -> seq_ahead (snd (post_items now b d)).
Proof.
  intros A. destruct (name_absent_or_blank (body_name b)) eqn:B.
  - now rewrite (post_items_refused now b d B).
  - destruct (body_name b) as [| |[x|x|s| |]] eqn:E;
      try discriminate B; try (unfold post_items, try_catch;
                               rewrite E; exact A).
    simpl in B.
    assert (trim s <> []) as NE.
    { intros T. apply trim_blank in T. congruence. }
    rewrite (post_items_insert now b s d E NE).
    destruct (insert_trimmed
                now s (nullish_coalescing (body_isInFridge b) (JBool true))
                d NE)
      as [(e & Q)|[(Q & _)|(flag & Q & _)]]; rewrite Q;
      unfold seq_ahead in *; simpl.
    + exact A.
    + apply (seq_ahead_step _ (fridge_items_id_seq d)); [lia | exact A].
    + apply Forall_app. split.
      * apply (seq_ahead_step _ (fridge_items_id_seq d)); [lia | exact A].
      * repeat constructor. simpl. lia.
Qed.

Lemma handle_seq_ahead (now : Z) (rq : request) (d : db) :
  seq_ahead d -> seq_ahead (snd (handle now rq d)).
Proof.
  intros A. destruct rq as [| |b|p|p|]; simpl; try exact A.
  - now apply post_items_seq_ahead.
  - destruct (int4in p) as [e|n] eqn:E.
    + now rewrite (patch_toggle_rejected now p e d E).
    + rewrite (patch_toggle_selected now p n d E). unfold seq_ahead in *.
      simpl. unfold update_where_id. apply Forall_map.
      eapply Forall_impl; [|exact A]. intros r Hr.
      now destruct (has_id n r).
  - destruct (int4in p) as [e|n] eqn:E.
    + now rewrite (delete_item_rejected now p e d E).
    + rewrite (delete_item_selected now p n d E). unfold seq_ahead in *.
      simpl. now apply Forall_filter.
Qed.

(** Every state the server reaches from a table whose sequence is
    ahead, such as the empty table of [createTable] or the table of
    [init.sql], has its sequence ahead. *)
Lemma seq_ahead_reachable (d d' : db) :
  seq_ahead d -> reachable d d' -> seq_ahead d'.
Proof.
  intros A R. induction R as [|d1 now rq R IH]; [exact A|].
  now apply handle_seq_ahead.
Qed.

(** With a sequence that is behind a stored id (a table loaded with
    its rows but a fresh sequence), the INSERT draws an id that is
    taken, the primary key refuses it and the answer is 500. *)
Example insert_with_sequence_behind :
  let d := {| fridge_items := [{| id := 1; name := lit "Eggs";
                                  is_in_fridge := true; created_at := 0 |}];
              fridge_items_id_seq := 1 |} in
  handle 5 (POST_items {| body_name := Def (JString (lit "Milk"));
                          body_isInFridge := undefined |}) d
  = (res 500 (error_json "Database error"
                (Some (DatabaseError (unique_violation 1)))),
     {| fridge_items := fridge_items d; fridge_items_id_seq := 2 |}).
Proof. reflexivity. Qed.

End Invariant.

(** C8.  If every stored row has a name that is not blank and no two
    rows share an id, the same holds in every state reached by serving
    requests: POST, PATCH toggle, DELETE and the other routes each keep
    the invariant. *)
Theorem invariant_in_reachable_states (d d' : db) :
  invariant d ->
  reachable d d' ->
  invariant d'
  /\ forall now rq, invariant (snd (handle now rq d')).
Proof.
  intros I R.
  assert (invariant d') as I'.
  { induction R as [|d1 now rq R IH]; [exact I|].
    now apply handle_invariant. }
  split; [exact I'|]. intros now rq. now apply handle_invariant.
Qed.

Lemma invariant_in_reachable_states_witness :
  let d1 := snd (handle 1 (POST_items
                             {| body_name := Def (JString (lit " Milk "));
                                body_isInFridge := null |}) empty_db) in
  let d2 := snd (handle 2 (PATCH_toggle (lit "1")) d1) in
  invariant empty_db /\ reachable empty_db d2 /\ invariant d2.
Proof.
  intros d1 d2.
  assert (reachable empty_db d2) as R.
  { apply reach_step. apply reach_step. apply reach_here. }
  split; [exact invariant_empty|]. split; [exact R|].
  exact (proj1 (invariant_in_reachable_states empty_db d2
                  invariant_empty R)).
Defined.

Section Startup.

Variable connected : nat -> bool.

(** The loop of [checkConnection]: [n] failed attempts, then either a
    successful one or none when the retries are used up. *)
Lemma while_retries_trace (retries k : nat) :
  exists n,
    (n <= retries)%nat
    /\ (forall i, (i < n)%nat -> connected (k + i) = false)
    /\ (n = retries \/ connected (k + n) = true)
    /\ while_retries connected k retries =
         (failed_attempts retries n
            ++ (if (n <? retries)%nat
                then [resolved SELECT_NOW; console_log "connected" []]
                else []),
          if (n <? retries)%nat then S (k + n) else (k + n)%nat).
Proof.
  revert k. induction retries as [|r IH]; intros k.
  - exists 0%nat. split; [lia|]. split; [intros i Hi; lia|].
    split; [now left|]. simpl. now rewrite Nat.add_0_r.
  - simpl. destruct (connected k) eqn:C.
    + exists 0%nat. rewrite Nat.add_0_r. split; [lia|].
      split; [intros i Hi; lia|]. split; [now right | reflexivity].
    + destruct (IH (S k)) as (n & L & F & Last & E).
      exists (S n). rewrite E. repeat split.
      * lia.
      * intros i Hi. destruct i as [|i].
        -- now rewrite Nat.add_0_r.
        -- replace (k + S i)%nat with (S k + i)%nat by lia.
           apply F. lia.
      * destruct Last as [->|Last]; [now left|]. right.
        now replace (k + S n)%nat with (S k + n)%nat by lia.
      * change (S n <? S r)%nat with (n <? r)%nat.
        replace (k + S n)%nat with (S k + n)%nat by lia.
        reflexivity.
Qed.

Lemma attempts_app (t u : list event) :
  attempts (t ++ u) = (attempts t + attempts u)%nat.
Proof. unfold attempts. now rewrite filter_app, length_app. Qed.

Lemma attempts_failed (retries n : nat) :
  attempts (failed_attempts retries n) = n.
Proof.
  revert retries. induction n as [|n IH]; intros retries;
    [reflexivity|].
  simpl. unfold attempts in *. simpl. now rewrite IH.
Qed.

End Startup.

(** C9.  [checkConnection] probes the database with [SELECT NOW()]; an
    attempt that fails is logged and followed by a delay of 5000 ms and,
    while attempts are left, by the next attempt; there are at most 5
    attempts, and exactly 5 when every one fails.  Whatever the probes
    answered, [initializeApp] goes on to [createTable] and then to
    [app.listen]. *)
Theorem startup_probes_at_most_five_times (connected : nat -> bool) :
  exists (n : nat) (created : list event),
    (n <= 5)%nat
    /\ (forall i, (i < n)%nat -> connected i = false)
    /\ (n = 5%nat \/ connected n = true)
    /\ initializeApp connected =
         failed_attempts 5 n
           ++ (if (n <? 5)%nat
               then [resolved SELECT_NOW; console_log "connected" []]
               else [])
           ++ created ++ [app_listen]
    /\ (created = [resolved CREATE_TABLE_IF_NOT_EXISTS;
                   console_log "table ready" []]
        \/ created = [rejected CREATE_TABLE_IF_NOT_EXISTS;
                      console_log "table error" []])
    /\ attempts (initializeApp connected)
       = (if (n <? 5)%nat then S n else 5%nat)
    /\ (attempts (initializeApp connected) <= 5)%nat.
Proof.
  destruct (while_retries_trace connected 5 0) as (n & L & F & Last & E).
  simpl Nat.add in *.
  unfold initializeApp, checkConnection. rewrite E.
  set (k1 := if (n <? 5)%nat then S n else n).
  exists n, (fst (createTable connected k1)).
  assert (forall c, attempts (fst (createTable connected c)) = 0%nat) as A0.
  { intros c. unfold createTable. now destruct (connected c). }
  assert (attempts
            (failed_attempts 5 n ++
             (if (n <? 5)%nat
              then [resolved SELECT_NOW; console_log "connected" []]
              else []) ++ fst (createTable connected k1) ++ [app_listen])
          = if (n <? 5)%nat then S n else 5%nat) as An.
  { rewrite !attempts_app, attempts_failed, A0.
    destruct (n <? 5)%nat eqn:Lt.
    - unfold attempts. simpl. lia.
    - apply Nat.ltb_ge in Lt. unfold attempts. simpl. lia. }
  destruct (createTable connected k1) as [t2 k2] eqn:CT. simpl fst in *.
  rewrite <- app_assoc.
  repeat split; try assumption.
  - unfold createTable in CT.
    destruct (connected k1); injection CT as <- _; [now left | now right].
  - rewrite An. destruct (n <? 5)%nat eqn:Lt; [|lia].
    apply Nat.ltb_lt in Lt. lia.
Qed.

(** When no attempt reaches the database, the startup is five failed
    attempts, each with its delay, then [createTable] and [listen]. *)
Example startup_with_database_down :
  initializeApp (fun _ => false) =
    failed_attempts 5 5
      ++ [rejected CREATE_TABLE_IF_NOT_EXISTS; console_log "table error" [];
          app_listen].
Proof. reflexivity. Qed.

(** ** Further properties of the handlers *)

(** X1.  POST /api/items normalises the name: a body with a string
    name and the body with that name already trimmed get the same
    answer and leave the same database. *)
Theorem post_name_trimmed_once (now : Z) (d : db) (s : jsstring) (v : value) :
  handle now (POST_items {| body_name := Def (JString s);
                            body_isInFridge := v |}) d
  = handle now (POST_items {| body_name := Def (JString (trim s));
                              body_isInFridge := v |}) d.
Proof.
  simpl. unfold post_items. simpl. now rewrite trim_idem.
Qed.

(** X2.  POST /api/items with a name that is present but not a string
    (a boolean, a number, an array, an object) runs no query: the call
    of [trim] throws, the catch answers 500 with [error: 'Database
    error'] and the message of the TypeError, and the database is as it
    was. *)
Theorem post_name_not_a_string
  (now : Z) (d : db) (b : post_body) (v : defined) :
  body_name b = Def v ->
  (forall s, v <> JString s) ->
  handle now (POST_items b) d
  = (res 500 (error_json "Database error"
                (Some (TypeError "name?.trim is not a function"))), d).
Proof.
  intros E NS. simpl. unfold post_items, try_catch. rewrite E.
  destruct v as [x|x|s| |]; try reflexivity. now elim (NS s).
Qed.

Lemma post_name_not_a_string_witness :
  handle 4 (POST_items {| body_name := Def (JNumber 5%float);
                          body_isInFridge := Def (JBool true) |})
    (init_sql 0)
  = (res 500 (error_json "Database error"
                (Some (TypeError "name?.trim is not a function"))),
     init_sql 0).
Proof.
  apply (post_name_not_a_string 4 (init_sql 0) _ (JNumber 5%float)).
  - reflexivity.
  - intros s. discriminate.
Defined.

(** X3.  The three outcomes of POST /api/items.  It answers 400
    exactly when the name is missing, null or blank, and then changes
    nothing; it answers 201 only after appending one row, which is the
    body of the answer, has the id drawn from the sequence (an id no
    stored row has, not above 2147483647), as name the trimmed name as
    the engine received it (a surrogate without its partner replaced by
    U+FFFD, no U+0000, at most 255 characters, nothing left to trim),
    the clock reading of the request and the flag the engine read from
    [isInFridge ?? true]; in every other case it answers 500 with
    [error: 'Database error'] and the rows are as they were. *)
Theorem post_outcomes (now : Z) (b : post_body) (d : db) :
  let resp := fst (handle now (POST_items b) d) in
  let d' := snd (handle now (POST_items b) d) in
  (status resp = 400
   /\ name_absent_or_blank (body_name b) = true
   /\ d' = d)
  \/ (status resp = 500
      /\ name_absent_or_blank (body_name b) = false
      /\ fridge_items d' = fridge_items d
      /\ exists e, body resp = error_json "Database error" (Some e))
  \/ (status resp = 201
      /\ name_absent_or_blank (body_name b) = false
      /\ exists s r,
           body_name b = Def (JString s)
           /\ body resp = row_json r
           /\ fridge_items d' = fridge_items d ++ [r]
           /\ fridge_items_id_seq d' = fridge_items_id_seq d + 1
           /\ id r = fridge_items_id_seq d
           /\ id r <= int4_max
           /\ ~ In (id r) (ids d)
           /\ textin (trim s) = inr (name r)
           /\ name r = characters (trim s)
           /\ well_kept (name r)
           /\ created_at r = now
           /\ bind_boolean
                (nullish_coalescing (body_isInFridge b) (JBool true))
              = inr (is_in_fridge r)).
Proof.
  intros resp d'. subst resp d'. simpl handle.
  destruct (name_absent_or_blank (body_name b)) eqn:B.
  - left. now rewrite (post_items_refused now b d B).
  - right.
    destruct (body_name b) as [| |[x|x|s| |]] eqn:E;
      try discriminate B;
      try (left; unfold post_items, try_catch; rewrite E; simpl;
           repeat split; eexists; reflexivity).
    simpl in B.
    assert (trim s <> []) as NE.
    { intros T. apply trim_blank in T. congruence. }
    rewrite (post_items_insert now b s d E NE).
    destruct (insert_trimmed
                now s (nullish_coalescing (body_isInFridge b) (JBool true))
                d NE)
      as [(e & Q)|[(Q & _)|(flag & Q & Bf & T & K & M & Fr)]]; rewrite Q.
    + left. simpl. repeat split. eexists. reflexivity.
    + left. simpl. repeat split. eexists. reflexivity.
    + right. simpl. split; [reflexivity|]. split; [reflexivity|].
      exists s. eexists. simpl. repeat split; try assumption.
      * apply K.
      * apply K.
      * apply K.
Qed.

(** X4.  The three outcomes of PATCH /api/items/:id/toggle.  It answers
    500 exactly when the engine rejects the id as an integer, 404
    exactly when the id is an integer that no row has, and in both
    cases changes nothing; it answers 200 exactly when some row has
    that id, and then the body is such a row with its flag negated and
    the table is the old one with the rows of that id toggled. *)
Theorem patch_outcomes (now : Z) (p : jsstring) (d : db) :
  let resp := fst (handle now (PATCH_toggle p) d) in
  let d' := snd (handle now (PATCH_toggle p) d) in
  (status resp = 500
   /\ (exists e, int4in p = inl e
                 /\ body resp
                    = error_json "Database error" (Some (DatabaseError e)))
   /\ d' = d)
  \/ (status resp = 404
      /\ (exists n, denotes p n /\ ~ In n (ids d))
      /\ body resp = error_json "Item not found" None
      /\ d' = d)
  \/ (status resp = 200
      /\ exists n r,
           denotes p n /\ In r (fridge_items d) /\ id r = n
           /\ body resp = row_json (set_not_is_in_fridge r)
           /\ fridge_items d' = update_where_id n (fridge_items d)
           /\ fridge_items_id_seq d' = fridge_items_id_seq d).
Proof.
  intros resp d'. subst resp d'. simpl handle.
  destruct (int4in p) as [e|n] eqn:E.
  - left. rewrite (patch_toggle_rejected now p e d E). simpl.
    repeat split. now exists e.
  - right. rewrite (patch_toggle_selected now p n d E).
    destruct (where_id n (fridge_items d)) as [|r l] eqn:W.
    + left. simpl. rewrite (update_no_match n _ W), record_eta.
      repeat split. exists n. split; [exact E|].
      now apply where_id_empty_ids.
    + right. simpl. destruct (where_id_sound _ _ _ _ W) as [HIn Hid].
      split; [reflexivity|]. exists n, r. repeat split; assumption.
Qed.

(** X5.  The three outcomes of DELETE /api/items/:id.  It answers 500
    exactly when the engine rejects the id as an integer, 404 exactly
    when the id is an integer that no row has, and in both cases
    changes nothing; it answers 200 exactly when some row has that id,
    and then [deletedItem] is such a row, as it was stored, and the
    table is the old one without the rows of that id. *)
Theorem delete_outcomes (now : Z) (p : jsstring) (d : db) :
  let resp := fst (handle now (DELETE_item p) d) in
  let d' := snd (handle now (DELETE_item p) d) in
  (status resp = 500
   /\ (exists e, int4in p = inl e
                 /\ body resp
                    = error_json "Database error" (Some (DatabaseError e)))
   /\ d' = d)
  \/ (status resp = 404
      /\ (exists n, denotes p n /\ ~ In n (ids d))
      /\ body resp = error_json "Item not found" None
      /\ d' = d)
  \/ (status resp = 200
      /\ exists n r,
           denotes p n /\ In r (fridge_items d) /\ id r = n
           /\ body resp = deleted_json "Item deleted" r
           /\ fridge_items d' = delete_where_id n (fridge_items d)
           /\ fridge_items_id_seq d' = fridge_items_id_seq d).
Proof.
  intros resp d'. subst resp d'. simpl handle.
  destruct (int4in p) as [e|n] eqn:E.
  - left. rewrite (delete_item_rejected now p e d E). simpl.
    repeat split. now exists e.
  - right. rewrite (delete_item_selected now p n d E).
    destruct (where_id n (fridge_items d)) as [|r l] eqn:W.
    + left. simpl. rewrite (delete_no_match n _ W), record_eta.
      repeat split. exists n. split; [exact E|].
      now apply where_id_empty_ids.
    + right. simpl. destruct (where_id_sound _ _ _ _ W) as [HIn Hid].
      split; [reflexivity|]. exists n, r. repeat split; assumption.
Qed.

(** X6.  Once DELETE /api/items/:id has been served for an id that is
    an integer, whether it removed a row or not, a toggle of the same
    id finds nothing: it answers 404 and changes nothing. *)
Theorem toggle_after_delete_not_found
  (now now' : Z) (d : db) (p : jsstring) (n : Z) :
  denotes p n ->
  let d1 := snd (handle now (DELETE_item p) d) in
  handle now' (PATCH_toggle p) d1
  = (res 404 (error_json "Item not found" None), d1).
Proof.
  intros Hp d1. subst d1. simpl handle.
  rewrite (delete_item_selected now p n d Hp). simpl snd.
  rewrite (patch_toggle_selected now' p n _ Hp). simpl fridge_items.
  rewrite where_id_delete.
  rewrite (update_no_match _ _ (where_id_delete n (fridge_items d))).
  reflexivity.
Qed.

Lemma toggle_after_delete_not_found_witness :
  let d1 := snd (handle 1 (DELETE_item (lit "2")) (init_sql 0)) in
  denotes (lit "2") 2
  /\ handle 2 (PATCH_toggle (lit "2")) d1
     = (res 404 (error_json "Item not found" None), d1).
Proof.
  intros d1. split; [reflexivity|].
  apply (toggle_after_delete_not_found 1 2 (init_sql 0) (lit "2") 2).
  reflexivity.
Defined.

Section OneRow.

Lemma delete_where_id_perm (rows : list fridge_item) (r : fridge_item) :
  NoDup (map id rows) -> In r rows ->
  Permutation rows (r :: delete_where_id (id r) rows).
Proof.
  unfold delete_where_id. induction rows as [|x rows IH]; simpl.
  - intros _ [].
  - intros ND HIn. inversion ND as [|? ? Hx ND']; subst.
    destruct HIn as [->|HIn].
    + rewrite has_id_self. simpl. apply perm_skip.
      assert (where_id (id r) rows = []) as W by now apply where_id_none.
      fold (delete_where_id (id r) rows).
      now rewrite (delete_no_match _ _ W).
    + destruct (has_id (id r) x) eqn:E.
      * unfold has_id in E. apply Z.eqb_eq in E. elim Hx. rewrite E.
        now apply in_map.
      * simpl. eapply perm_trans; [|apply perm_swap].
        apply perm_skip. now apply IH.
Qed.

End OneRow.

(** X7.  In a table with distinct ids, a DELETE that finds its row
    removes that one row and nothing else: the old table is the new one
    plus the deleted row, so the table is shorter by exactly one. *)
Theorem delete_removes_exactly_one
  (now : Z) (d : db) (p : jsstring) (r : fridge_item) :
  NoDup (ids d) ->
  In r (fridge_items d) ->
  denotes p (id r) ->
  let d1 := snd (handle now (DELETE_item p) d) in
  Permutation (fridge_items d) (r :: fridge_items d1)
  /\ List.length (fridge_items d) = S (List.length (fridge_items d1))
  /\ fridge_items_id_seq d1 = fridge_items_id_seq d.
Proof.
  intros ND HIn Hp d1. subst d1. simpl handle.
  rewrite (delete_item_selected now p (id r) d Hp). simpl.
  pose proof (delete_where_id_perm _ r ND HIn) as P.
  split; [exact P|]. split; [|reflexivity].
  now rewrite (Permutation_length P).
Qed.

Lemma delete_removes_exactly_one_witness :
  let d := init_sql 0 in
  let d1 := snd (handle 1 (DELETE_item (lit "4")) d) in
  List.length (fridge_items d) = S (List.length (fridge_items d1)).
Proof.
  intros d d1.
  refine (proj1 (proj2 (delete_removes_exactly_one 1 d (lit "4")
            {| id := 4; name := [1057; 1099; 1088]%N; is_in_fridge := true;
               created_at := 0 |} _ _ eq_refl))).
  - vm_compute. repeat constructor; simpl; intuition discriminate.
  - vm_compute. tauto.
Defined.

Section Independence.

Lemma where_id_update_other (a b : Z) (rows : list fridge_item) :
  a <> b -> where_id b (update_where_id a rows) = where_id b rows.
Proof.
  intros NE. unfold where_id, update_where_id.
  induction rows as [|r rows IH]; simpl; [reflexivity|].
  destruct (has_id a r) eqn:A.
  - rewrite has_id_set_not. unfold has_id in *. apply Z.eqb_eq in A.
    assert ((id r =? b) = false) as -> by (apply Z.eqb_neq; lia).
    exact IH.
  - now rewrite IH.
Qed.

Lemma where_id_delete_other (a b : Z) (rows : list fridge_item) :
  a <> b -> where_id b (delete_where_id a rows) = where_id b rows.
Proof.
  intros NE. unfold where_id, delete_where_id.
  induction rows as [|r rows IH]; simpl; [reflexivity|].
  destruct (has_id a r) eqn:A; simpl.
  - unfold has_id in *. apply Z.eqb_eq in A.
    assert ((id r =? b) = false) as -> by (apply Z.eqb_neq; lia).
    exact IH.
  - now rewrite IH.
Qed.

Lemma update_update_comm (a b : Z) (rows : list fridge_item) :
  update_where_id a (update_where_id b rows)
  = update_where_id b (update_where_id a rows).
Proof.
  unfold update_where_id. rewrite !map_map. apply map_ext. intros r.
  destruct (has_id a r) eqn:A, (has_id b r) eqn:B;
    rewrite ?has_id_set_not, ?A, ?B; reflexivity.
Qed.

Lemma delete_update_comm (a b : Z) (rows : list fridge_item) :
  delete_where_id a (update_where_id b rows)
  = update_where_id b (delete_where_id a rows).
Proof.
  unfold delete_where_id, update_where_id.
  induction rows as [|r rows IH]; simpl; [reflexivity|].
  destruct (has_id b r) eqn:B; rewrite ?has_id_set_not;
    destruct (has_id a r) eqn:A; simpl; rewrite ?B, IH; reflexivity.
Qed.

Lemma delete_delete_comm (a b : Z) (rows : list fridge_item) :
  delete_where_id a (delete_where_id b rows)
  = delete_where_id b (delete_where_id a rows).
Proof.
  unfold delete_where_id.
  induction rows as [|r rows IH]; simpl; [reflexivity|].
  destruct (has_id b r) eqn:B, (has_id a r) eqn:A; simpl;
    rewrite ?A, ?B, IH; reflexivity.
Qed.

End Independence.

(** X8.  Toggles and deletes of different ids do not interfere: served
    after a toggle or delete of another id, a toggle or delete gets the
    answer it would have got without it, and the two requests leave the
    same database in either order. *)
Theorem requests_on_different_ids_independent
  (now1 now2 : Z) (rq1 rq2 : request) (p q : jsstring) (a b : Z) (d : db) :
  target rq1 = Some p ->
  target rq2 = Some q ->
  denotes p a ->
  denotes q b ->
  a <> b ->
  fst (handle now2 rq2 (snd (handle now1 rq1 d)))
  = fst (handle now2 rq2 d)
  /\ snd (handle now2 rq2 (snd (handle now1 rq1 d)))
     = snd (handle now1 rq1 (snd (handle now2 rq2 d))).
Proof.
  intros T1 T2 Hp Hq NE.
  assert (b <> a) as NE' by congruence.
  destruct rq1 as [| |?|p1|p1|]; try discriminate T1;
    injection T1 as ->;
    destruct rq2 as [| |?|q1|q1|]; try discriminate T2;
    injection T2 as ->; simpl handle;
    rewrite ?(patch_toggle_selected now1 p a d Hp),
            ?(delete_item_selected now1 p a d Hp),
            ?(patch_toggle_selected now2 q b d Hq),
            ?(delete_item_selected now2 q b d Hq);
    simpl snd;
    rewrite ?(patch_toggle_selected now1 p a _ Hp),
            ?(delete_item_selected now1 p a _ Hp),
            ?(patch_toggle_selected now2 q b _ Hq),
            ?(delete_item_selected now2 q b _ Hq);
    simpl;
    rewrite ?(where_id_update_other a b _ NE),
            ?(where_id_delete_other a b _ NE);
    (split; [reflexivity|]); f_equal.
  - apply update_update_comm.
  - apply delete_update_comm.
  - symmetry. apply delete_update_comm.
  - apply delete_delete_comm.
Qed.

Lemma requests_on_different_ids_independent_witness :
  let d := init_sql 0 in
  fst (handle 2 (DELETE_item (lit "5"))
         (snd (handle 1 (PATCH_toggle (lit "3")) d)))
  = fst (handle 2 (DELETE_item (lit "5")) d)
  /\ snd (handle 2 (DELETE_item (lit "5"))
            (snd (handle 1 (PATCH_toggle (lit "3")) d)))
     = snd (handle 1 (PATCH_toggle (lit "3"))
              (snd (handle 2 (DELETE_item (lit "5")) d))).
Proof.
  intros d.
  apply (requests_on_different_ids_independent 1 2
           (PATCH_toggle (lit "3")) (DELETE_item (lit "5"))
           (lit "3") (lit "5") 3 5 d);
    reflexivity || discriminate.
Defined.

Section Lineage.

Lemma post_items_effect (now : Z) (b : post_body) (d : db) :
  let d' := snd (post_items now b d) in
  (fridge_items d' = fridge_items d
   /\ (fridge_items_id_seq d' = fridge_items_id_seq d
       \/ fridge_items_id_seq d' = fridge_items_id_seq d + 1))
  \/ exists r,
       fridge_items d' = fridge_items d ++ [r]
       /\ fridge_items_id_seq d' = fridge_items_id_seq d + 1
       /\ id r = fridge_items_id_seq d
       /\ well_kept (name r)
       /\ created_at r = now.
Proof.
  intros d'. subst d'.
  destruct (name_absent_or_blank (body_name b)) eqn:B.
  - left. rewrite (post_items_refused now b d B). simpl. tauto.
  - destruct (body_name b) as [| |[x|x|s| |]] eqn:E;
      try discriminate B;
      try (left; unfold post_items, try_catch; rewrite E; simpl; tauto).
    simpl in B.
    assert (trim s <> []) as NE.
    { intros T. apply trim_blank in T. congruence. }
    rewrite (post_items_insert now b s d E NE).
    destruct (insert_trimmed
                now s (nullish_coalescing (body_isInFridge b) (JBool true))
                d NE)
      as [(e & Q)|[(Q & _)|(flag & Q & _ & _ & K & _)]]; rewrite Q.
    + left. simpl. tauto.
    + left. simpl. tauto.
    + right. eexists. simpl. repeat split; apply K.
Qed.

(** Every row found after a request either continues a row found
    before it, with the same id, name and [created_at], or is the row
    the request created, whose id is the value the sequence had. *)
Lemma handle_descent (now : Z) (rq : request) (d : db) (r' : fridge_item) :
  In r' (fridge_items (snd (handle now rq d))) ->
  (exists r, In r (fridge_items d) /\ id r' = id r /\ name r' = name r
             /\ created_at r' = created_at r)
  \/ (id r' = fridge_items_id_seq d /\ well_kept (name r')
      /\ created_at r' = now).
Proof.
  assert (forall x, In x (fridge_items d) ->
            exists r, In r (fridge_items d) /\ id x = id r
                      /\ name x = name r /\ created_at x = created_at r)
    as Same.
  { intros x Hx. exists x. tauto. }
  destruct rq as [| |b|p|p|]; simpl handle; intros H;
    try (left; now apply Same).
  - destruct (post_items_effect now b d) as [[E _]|(r & E & _ & I & K & C)];
      rewrite E in H.
    + left. now apply Same.
    + apply in_app_or in H. destruct H as [H|[<-|[]]].
      * left. now apply Same.
      * right. tauto.
  - left. rewrite patch_toggle_rows in H.
    destruct (int4in p) as [e|n]; [now apply Same|].
    unfold update_where_id in H. apply in_map_iff in H.
    destruct H as (x & <- & Hx). exists x.
    destruct (has_id n x); simpl; tauto.
  - left. rewrite delete_item_rows in H.
    destruct (int4in p) as [e|n]; [now apply Same|].
    unfold delete_where_id in H. apply filter_In in H.
    apply Same. tauto.
Qed.

Lemma handle_seq_grows (now : Z) (rq : request) (d : db) :
  fridge_items_id_seq d <= fridge_items_id_seq (snd (handle now rq d)).
Proof.
  destruct rq as [| |b|p|p|]; simpl handle; try (simpl; lia).
  - destruct (post_items_effect now b d) as [[_ [E|E]]|(r & _ & E & _)];
      rewrite E; lia.
  - destruct (int4in p) as [e|n] eqn:E.
    + rewrite (patch_toggle_rejected now p e d E). simpl. lia.
    + rewrite (patch_toggle_selected now p n d E). simpl. lia.
  - destruct (int4in p) as [e|n] eqn:E.
    + rewrite (delete_item_rejected now p e d E). simpl. lia.
    + rewrite (delete_item_selected now p n d E). simpl. lia.
Qed.

Lemma reachable_lineage (d d' : db) :
  reachable d d' ->
  fridge_items_id_seq d <= fridge_items_id_seq d'
  /\ forall r', In r' (fridge_items d') ->
       (exists r, In r (fridge_items d) /\ id r' = id r
                  /\ name r' = name r /\ created_at r' = created_at r)
       \/ fridge_items_id_seq d <= id r'.
Proof.
  induction 1 as [|d1 now rq R [IHs IHr]].
  - split; [lia|]. intros r' H. left. exists r'. tauto.
  - split.
    + pose proof (handle_seq_grows now rq d1). lia.
    + intros r' H. apply handle_descent in H.
      destruct H as [(x & Hx & I & N & C)|(I & _)].
      * destruct (IHr x Hx) as [(r & Hr & I' & N' & C')|Hnew].
        -- left. exists r. repeat split; congruence.
        -- right. lia.
      * right. lia.
Qed.

Lemma NoDup_ids_inj (rows : list fridge_item) (a b : fridge_item) :
  NoDup (map id rows) -> In a rows -> In b rows -> id a = id b -> a = b.
Proof.
  induction rows as [|x rows IH]; simpl; [intros _ []|].
  intros ND Ha Hb E. inversion ND as [|? ? Hx ND']; subst.
  destruct Ha as [->|Ha], Hb as [->|Hb].
  - reflexivity.
  - elim Hx. rewrite E. now apply in_map.
  - elim Hx. rewrite <- E. now apply in_map.
  - now apply IH.
Qed.

End Lineage.

(** X9.  An id is never given twice.  In every state the server
    reaches the sequence has not gone back, and an id below the
    sequence value that no row has (one that was skipped, or whose row
    has been deleted) is the id of no row: new rows only get ids drawn
    from the sequence. *)
Theorem ids_never_reused (d d' : db) (n : Z) :
  reachable d d' ->
  n < fridge_items_id_seq d ->
  ~ In n (ids d) ->
  fridge_items_id_seq d <= fridge_items_id_seq d'
  /\ ~ In n (ids d').
Proof.
  intros R L Free. destruct (reachable_lineage d d' R) as [S Lin].
  split; [exact S|]. intros H. unfold ids in H. apply in_map_iff in H.
  destruct H as (r' & E & Hr'). destruct (Lin r' Hr') as [(r & Hr & I & _)|G].
  - apply Free. unfold ids. apply in_map_iff. exists r. split; congruence.
  - lia.
Qed.

Lemma ids_never_reused_witness :
  let d0 := init_sql 0 in
  let d1 := snd (handle 1 (DELETE_item (lit "6")) d0) in
  let d2 := snd (handle 2 (POST_items
                             {| body_name := Def (JString (lit "Kefir"));
                                body_isInFridge := undefined |}) d1) in
  ~ In 6 (ids d2) /\ ids d2 = [1; 2; 3; 4; 5; 7].
Proof.
  intros d0 d1 d2. split; [|reflexivity].
  assert (reachable d1 d2) as R by (apply reach_step, reach_here).
  refine (proj2 (ids_never_reused d1 d2 6 R _ _)).
  - vm_compute. reflexivity.
  - vm_compute. intuition discriminate.
Defined.

(** X10.  A row keeps its name and its [created_at] for as long as it
    exists.  Starting from a table with distinct ids whose sequence is
    ahead, whatever requests are served, a row found later under the id
    of a row of the starting table has that row's name and timestamp. *)
Theorem name_and_created_at_never_change
  (d d' : db) (r r' : fridge_item) :
  seq_ahead d ->
  NoDup (ids d) ->
  reachable d d' ->
  In r (fridge_items d) ->
  In r' (fridge_items d') ->
  id r' = id r ->
  name r' = name r /\ created_at r' = created_at r.
Proof.
  intros A ND R Hr Hr' E.
  destruct (reachable_lineage d d' R) as [_ Lin].
  destruct (Lin r' Hr') as [(x & Hx & I & N & C)|G].
  - assert (x = r) as -> by (apply (NoDup_ids_inj _ _ _ ND Hx Hr); congruence).
    tauto.
  - unfold seq_ahead in A. rewrite Forall_forall in A.
    specialize (A r Hr). simpl in A. lia.
Qed.

Lemma name_and_created_at_never_change_witness :
  let d := init_sql 0 in
  let d' := snd (handle 9 (PATCH_toggle (lit "3")) d) in
  let r := {| id := 3; name := [1061; 1083; 1077; 1073]%N;
              is_in_fridge := false; created_at := 0 |} in
  let r' := {| id := 3; name := [1061; 1083; 1077; 1073]%N;
               is_in_fridge := true; created_at := 0 |} in
  In r' (fridge_items d')
  /\ name r' = name r /\ created_at r' = created_at r.
Proof.
  intros d d' r r'.
  assert (In r' (fridge_items d')) as H' by (vm_compute; tauto).
  split; [exact H'|].
  apply (name_and_created_at_never_change d d' r r').
  - apply seq_ahead_init_sql.
  - exact (proj2 (invariant_init_sql 0)).
  - apply reach_step, reach_here.
  - vm_compute. tauto.
  - exact H'.
  - reflexivity.
Defined.

(** X11.  Stored names stay as the server writes them.  If every name
    in the table has nothing to trim, is not empty and has at most 255
    characters (as after [init.sql] or in the empty table), the same
    holds in every state the server reaches. *)
Theorem names_stay_trimmed_and_bounded (d d' : db) :
  Forall (fun r => well_kept (name r)) (fridge_items d) ->
  reachable d d' ->
  Forall (fun r => well_kept (name r)) (fridge_items d').
Proof.
  intros F R. induction R as [|d1 now rq R IH]; [exact F|].
  rewrite Forall_forall in *. intros r' H. apply handle_descent in H.
  destruct H as [(x & Hx & _ & N & _)|(_ & K & _)].
  - rewrite N. now apply IH.
  - exact K.
Qed.

Lemma names_stay_trimmed_and_bounded_witness :
  let d' := snd (handle 1 (POST_items
                             {| body_name := Def (JString (lit "  Kefir  "));
                                body_isInFridge := null |}) (init_sql 0)) in
  Forall (fun r => well_kept (name r)) (fridge_items d').
Proof.
  intros d'.
  apply (names_stay_trimmed_and_bounded (init_sql 0) d').
  - simpl. repeat constructor; simpl; try discriminate; lia.
  - apply reach_step, reach_here.
Defined.

Section Created.

(** A POST answered 201 has appended the row it answers with. *)
Lemma post_created (now : Z) (d : db) (b : post_body) (r : fridge_item) :
  fst (handle now (POST_items b) d) = res 201 (row_json r) ->
  snd (handle now (POST_items b) d)
  = {| fridge_items := fridge_items d ++ [r];
       fridge_items_id_seq := fridge_items_id_seq d + 1 |}
  /\ id r = fridge_items_id_seq d
  /\ ~ In (id r) (ids d)
  /\ created_at r = now
  /\ well_kept (name r).
Proof.
  simpl handle. intros H.
  destruct (name_absent_or_blank (body_name b)) eqn:B.
  - rewrite (post_items_refused now b d B) in H. discriminate H.
  - destruct (body_name b) as [| |[x|x|s| |]] eqn:E;
      try discriminate B;
      try (unfold post_items, try_catch in H; rewrite E in H;
           discriminate H).
    simpl in B.
    assert (trim s <> []) as NE.
    { intros T. apply trim_blank in T. congruence. }
    rewrite (post_items_insert now b s d E NE) in *.
    destruct (insert_trimmed
                now s (nullish_coalescing (body_isInFridge b) (JBool true))
                d NE)
      as [(e & Q)|[(Q & _)|(flag & Q & _ & _ & K & _ & Fr)]];
      rewrite Q in *; try discriminate H.
    simpl in H. injection H as <-. simpl.
    repeat split; try assumption; apply K.
Qed.

Variables (rows : list fridge_item) (n : Z) (x : fridge_item).

Hypothesis fresh : ~ In n (map id rows).
Hypothesis id_x : id x = n.

Lemma where_id_created : where_id n (rows ++ [x]) = [x].
Proof.
  unfold where_id. rewrite filter_app. fold (where_id n rows).
  rewrite (where_id_none _ _ fresh). simpl.
  unfold has_id. now rewrite id_x, Z.eqb_refl.
Qed.

Lemma update_created :
  update_where_id n (rows ++ [x]) = rows ++ [set_not_is_in_fridge x].
Proof.
  unfold update_where_id. rewrite map_app. fold (update_where_id n rows).
  rewrite (update_no_match _ _ (where_id_none _ _ fresh)).
  simpl. unfold has_id. now rewrite id_x, Z.eqb_refl.
Qed.

Lemma delete_created (y : fridge_item) :
  id y = n -> delete_where_id n (rows ++ [y]) = rows.
Proof.
  intros E. unfold delete_where_id. rewrite filter_app.
  fold (delete_where_id n rows).
  rewrite (delete_no_match _ _ (where_id_none _ _ fresh)).
  simpl. unfold has_id. rewrite E, Z.eqb_refl. simpl.
  apply app_nil_r.
Qed.

End Created.

(** X12.  The life of an item.  After a POST that answered 201 with a
    row, a toggle of that row's id answers 200 with the row and its
    flag negated; a DELETE of the id then answers 200 with
    [deletedItem] that toggled row; after it the rows are exactly those
    stored before the POST (only the sequence has moved on by one), and
    a further toggle or DELETE of the id answers 404. *)
Theorem create_toggle_delete
  (t0 t1 t2 t3 : Z) (d : db) (b : post_body) (p : jsstring)
  (r : fridge_item) :
  fst (handle t0 (POST_items b) d) = res 201 (row_json r) ->
  denotes p (id r) ->
  let toggled := {| id := id r; name := name r;
                    is_in_fridge := negb (is_in_fridge r);
                    created_at := created_at r |} in
  let d1 := snd (handle t0 (POST_items b) d) in
  let d2 := snd (handle t1 (PATCH_toggle p) d1) in
  let d3 := snd (handle t2 (DELETE_item p) d2) in
  In r (fridge_items d1)
  /\ fst (handle t1 (PATCH_toggle p) d1) = res 200 (row_json toggled)
  /\ fst (handle t2 (DELETE_item p) d2)
     = res 200 (deleted_json "Item deleted" toggled)
  /\ fridge_items d3 = fridge_items d
  /\ fridge_items_id_seq d3 = fridge_items_id_seq d + 1
  /\ status (fst (handle t3 (PATCH_toggle p) d3)) = 404
  /\ status (fst (handle t3 (DELETE_item p) d3)) = 404.
Proof.
  intros H Hp toggled d1 d2 d3. subst d3 d2 d1.
  destruct (post_created t0 d b r H) as (-> & _ & Fr & _).
  unfold ids in Fr. simpl handle. simpl snd.
  split; [apply in_or_app; right; now left|].
  rewrite (patch_toggle_selected t1 p _ _ Hp). simpl fridge_items.
  rewrite (where_id_created _ _ r Fr eq_refl),
    (update_created _ _ r Fr eq_refl).
  simpl snd. simpl fst.
  rewrite (delete_item_selected t2 p _ _ Hp). simpl fridge_items.
  rewrite (where_id_created _ _ (set_not_is_in_fridge r) Fr eq_refl),
    (delete_created _ _ Fr (set_not_is_in_fridge r) eq_refl).
  simpl snd. simpl fst.
  rewrite (patch_toggle_selected t3 p _ _ Hp).
  rewrite (delete_item_selected t3 p _ _ Hp). simpl fridge_items.
  rewrite (where_id_none _ _ Fr).
  repeat split.
Qed.

Lemma create_toggle_delete_witness :
  let b := {| body_name := Def (JString (lit "Milk"));
              body_isInFridge := undefined |} in
  let d1 := snd (handle 1 (POST_items b) (init_sql 0)) in
  let d2 := snd (handle 2 (PATCH_toggle (lit "7")) d1) in
  fst (handle 2 (PATCH_toggle (lit "7")) d1)
  = res 200 (row_json {| id := 7; name := lit "Milk";
                         is_in_fridge := false; created_at := 1 |})
  /\ fridge_items (snd (handle 3 (DELETE_item (lit "7")) d2))
     = fridge_items (init_sql 0).
Proof.
  intros b d1 d2.
  pose proof (create_toggle_delete 1 2 3 4 (init_sql 0) b (lit "7")
                {| id := 7; name := lit "Milk"; is_in_fridge := true;
                   created_at := 1 |} eq_refl eq_refl) as H.
  destruct H as (_ & H1 & _ & H3 & _).
  split; [exact H1 | exact H3].
Defined.

Section Newest.

Lemma newest_is_first (r : fridge_item) (rows l : list fridge_item) :
  StronglySorted newer_or_same l ->
  Permutation l (r :: rows) ->
  Forall (fun x => created_at x < created_at r) rows ->
  exists rest, l = r :: rest /\ Permutation rest rows.
Proof.
  intros S P Old. destruct l as [|x rest].
  - apply Permutation_nil in P. discriminate.
  - assert (x = r) as ->.
    { assert (In x (r :: rows)) as Hx
          by (apply (Permutation_in _ P); now left).
      destruct Hx as [<-|Hx]; [reflexivity|].
      rewrite Forall_forall in Old. specialize (Old x Hx).
      assert (In r (x :: rest)) as Hr
          by (apply (Permutation_in _ (Permutation_sym P)); now left).
      destruct Hr as [->|Hr]; [reflexivity|].
      inversion S as [|? ? _ Fx]; subst. rewrite Forall_forall in Fx.
      specialize (Fx r Hr). unfold newer_or_same in Fx. lia. }
    exists rest. split; [reflexivity|].
    now apply Permutation_cons_inv in P.
Qed.

End Newest.

(** X13.  Newest first, for a new item.  When a POST has answered 201
    with a row whose [created_at] is later than that of every row
    stored before, the listing of a following GET /api/items starts
    with the created row, followed by the rows stored before. *)
Theorem created_row_listed_first
  (now now' : Z) (d : db) (b : post_body) (r : fridge_item) :
  fst (handle now (POST_items b) d) = res 201 (row_json r) ->
  Forall (fun x => created_at x < created_at r) (fridge_items d) ->
  let d1 := snd (handle now (POST_items b) d) in
  exists rest,
    fst (handle now' GET_items d1) = res 200 (rows_json (r :: rest))
    /\ Permutation rest (fridge_items d).
Proof.
  intros H Old d1. subst d1.
  destruct (post_created now d b r H) as (-> & _). simpl.
  destruct (newest_is_first r (fridge_items d)
              (order_by_created_at_desc (fridge_items d ++ [r])))
    as (rest & El & P).
  - apply order_by_sorted.
  - eapply perm_trans; [apply Permutation_sym, order_by_perm|].
    eapply perm_trans; [apply Permutation_app_comm|]. apply Permutation_refl.
  - exact Old.
  - exists rest. rewrite El. split; [reflexivity | exact P].
Qed.

Lemma created_row_listed_first_witness :
  let b := {| body_name := Def (JString (lit "Milk"));
              body_isInFridge := Def (JBool false) |} in
  let d1 := snd (handle 5 (POST_items b) (init_sql 0)) in
  exists rest,
    fst (handle 6 GET_items d1)
    = res 200 (rows_json ({| id := 7; name := lit "Milk";
                             is_in_fridge := false; created_at := 5 |}
                            :: rest))
    /\ Permutation rest (fridge_items (init_sql 0)).
Proof.
  intros b d1.
  apply (created_row_listed_first 5 6 (init_sql 0) b
           {| id := 7; name := lit "Milk"; is_in_fridge := false;
              created_at := 5 |} eq_refl).
  simpl. repeat constructor.
Defined.

Section StartupCounts.

Lemma total_delay_app (t u : list event) :
  total_delay (t ++ u) = total_delay t + total_delay u.
Proof.
  unfold total_delay. induction t as [|e t IH]; simpl; [reflexivity|].
  rewrite IH. lia.
Qed.

Lemma count_app (f : event -> bool) (t u : list event) :
  count f (t ++ u) = (count f t + count f u)%nat.
Proof. unfold count. now rewrite filter_app, length_app. Qed.

Lemma total_delay_failed (retries n : nat) :
  total_delay (failed_attempts retries n) = 5000 * Z.of_nat n.
Proof.
  revert retries. induction n as [|n IH]; intros retries; [reflexivity|].
  cbn [failed_attempts]. rewrite total_delay_app, IH.
  unfold failed_attempt, total_delay. simpl fold_right. lia.
Qed.

Lemma count_failed (f : event -> bool) (retries n : nat) :
  (forall msg l, f (console_log msg l) = false) ->
  f (setTimeout 5000) = false ->
  count f (failed_attempts retries n)
  = if f (rejected SELECT_NOW) then n else 0%nat.
Proof.
  intros Hlog Hwait. revert retries.
  induction n as [|n IH]; intros retries.
  - now destruct (f (rejected SELECT_NOW)).
  - cbn [failed_attempts]. rewrite count_app, IH.
    unfold count, failed_attempt. simpl. rewrite Hlog, Hwait.
    destruct (f (rejected SELECT_NOW)); reflexivity.
Qed.

Lemma createTable_shape (connected : nat -> bool) (k : nat) :
  exists q,
    fst (createTable connected k) = [q; console_log
                                          (if connected k then "table ready"
                                           else "table error") []]
    /\ is_create_table q = true /\ is_query q = true
    /\ is_failed_probe q = false /\ is_listen q = false
    /\ delay_of q = 0.
Proof.
  unfold createTable. destruct (connected k); eexists;
    (split; [reflexivity|]); repeat split.
Qed.

End StartupCounts.

(** X14.  The waiting at startup.  If the first [n] probes fail and the
    next one succeeds, or all 5 fail, [initializeApp] waits [n] times
    5000 ms in all before it listens: nothing when the database answers
    at once, 25 seconds at most. *)
Theorem startup_delay (connected : nat -> bool) :
  exists n : nat,
    (n <= 5)%nat
    /\ (forall i, (i < n)%nat -> connected i = false)
    /\ (n = 5%nat \/ connected n = true)
    /\ count is_failed_probe (initializeApp connected) = n
    /\ total_delay (initializeApp connected) = 5000 * Z.of_nat n
    /\ 0 <= total_delay (initializeApp connected) <= 25000.
Proof.
  destruct (while_retries_trace connected 5 0) as (n & L & F & Last & E).
  simpl Nat.add in *. exists n.
  unfold initializeApp, checkConnection. rewrite E.
  set (k1 := if (n <? 5)%nat then S n else n).
  destruct (createTable_shape connected k1) as (q & Eq & _ & _ & Fq & _ & Dq).
  destruct (createTable connected k1) as [t2 k2]. simpl fst in Eq. subst t2.
  assert (count is_failed_probe
            (if (n <? 5)%nat
             then [resolved SELECT_NOW; console_log "connected" []]
             else []) = 0%nat) as C0 by now destruct (n <? 5)%nat.
  assert (total_delay
            (if (n <? 5)%nat
             then [resolved SELECT_NOW; console_log "connected" []]
             else []) = 0) as D0 by now destruct (n <? 5)%nat.
  rewrite !count_app, !total_delay_app, C0, D0, total_delay_failed.
  rewrite (count_failed is_failed_probe 5 n) by reflexivity.
  unfold count, total_delay. cbn -[Z.mul Z.of_nat]. rewrite Fq, Dq.
  cbn -[Z.mul Z.of_nat].
  repeat split; try assumption; lia.
Qed.

(** X15.  What the startup asks of the pool.  Whatever the probes
    answer, [initializeApp] issues at most 6 queries, exactly one of
    them the CREATE TABLE, and calls [app.listen] exactly once, as its
    last step. *)
Theorem startup_queries_and_listen (connected : nat -> bool) :
  (count is_query (initializeApp connected) <= 6)%nat
  /\ count is_create_table (initializeApp connected) = 1%nat
  /\ count is_listen (initializeApp connected) = 1%nat
  /\ exists before, initializeApp connected = before ++ [app_listen].
Proof.
  destruct (while_retries_trace connected 5 0) as (n & L & F & Last & E).
  simpl Nat.add in *.
  unfold initializeApp, checkConnection. rewrite E.
  set (k1 := if (n <? 5)%nat then S n else n).
  destruct (createTable_shape connected k1)
    as (q & Eq & Cq & Qq & _ & Lq & _).
  destruct (createTable connected k1) as [t2 k2]. simpl fst in Eq. subst t2.
  split; [|split; [|split]].
  - rewrite !count_app, (count_failed is_query 5 n) by reflexivity.
    unfold count. simpl. rewrite Qq.
    destruct (n <? 5)%nat eqn:Lt; simpl; [apply Nat.ltb_lt in Lt|]; lia.
  - rewrite !count_app, (count_failed is_create_table 5 n) by reflexivity.
    unfold count. simpl. rewrite Cq. now destruct (n <? 5)%nat.
  - rewrite !count_app, (count_failed is_listen 5 n) by reflexivity.
    unfold count. simpl. rewrite Lq. now destruct (n <? 5)%nat.
  - eexists. rewrite !app_assoc. reflexivity.
Qed.

Section DatabaseDown.

(** On the pool of the server the open routes are the handlers. *)
Lemma items_route_pool_query (now : Z) (rq : request) (d : db)
      (out : response * db) :
  Routes.items_route pool_query now rq d = Some out ->
  handle now rq d = out.
Proof.
  destruct rq; simpl; intros H; try discriminate H;
    now injection H as <-.
Qed.

End DatabaseDown.



(** X17.  The sequence keeps POST clear of the primary key.  In every
    state the server reaches from a table whose sequence is ahead of
    its ids (the empty table, the table of [init.sql]), no POST is
    refused for a duplicate id: as long as the sequence has not passed
    2147483647, a POST whose trimmed name is not empty and is received
    by the engine as a text of at most 255 characters, and whose flag
    the engine reads as a boolean, is answered 201 and appends the row
    with that text, that flag and the next sequence value as id. *)
Theorem post_succeeds_in_reachable_states
  (d d' : db) (now : Z) (b : post_body) (s text : jsstring) (flag : bool) :
  seq_ahead d ->
  reachable d d' ->
  fridge_items_id_seq d' <= int4_max ->
  body_name b = Def (JString s) ->
  trim s <> [] ->
  textin (trim s) = inr text ->
  (List.length text <= 255)%nat ->
  bind_boolean (nullish_coalescing (body_isInFridge b) (JBool true))
  = inr flag ->
  let r := {| id := fridge_items_id_seq d'; name := text;
              is_in_fridge := flag; created_at := now |} in
  handle now (POST_items b) d'
  = (res 201 (row_json r),
     {| fridge_items := fridge_items d' ++ [r];
        fridge_items_id_seq := fridge_items_id_seq d' + 1 |})
  /\ ~ In (fridge_items_id_seq d') (ids d').
Proof.
  intros A R M E NE T L B r.
  pose proof (seq_ahead_fresh d' (seq_ahead_reachable d d' A R)) as Fr.
  split; [|exact Fr].
  simpl handle. rewrite (post_items_insert now b s d' E NE).
  unfold query. rewrite T, B.
  assert (text = characters (trim s)) as Et.
  { unfold textin in T. destruct (existsb _ _); [discriminate T|].
    now injection T as <-. }
  pose proof (characters_visible_ends _ (trim_visible_ends s NE)) as V.
  rewrite <- Et in V. rewrite (varchar_visible 255 text V).
  apply Nat.leb_le in L. rewrite L.
  apply Z.ltb_ge in M. rewrite M.
  apply existsb_has_id in Fr. unfold ids in Fr. now rewrite Fr.
Qed.

Lemma post_succeeds_in_reachable_states_witness :
  let d1 := snd (handle 1 (DELETE_item (lit "6")) (init_sql 0)) in
  status (fst (handle 2 (POST_items
                           {| body_name := Def (JString (lit "Kefir"));
                              body_isInFridge := undefined |}) d1)) = 201.
Proof.
  intros d1.
  assert (reachable (init_sql 0) d1) as R by apply reach_step, reach_here.
  pose proof (post_succeeds_in_reachable_states (init_sql 0) d1 2
                {| body_name := Def (JString (lit "Kefir"));
                   body_isInFridge := undefined |}
                (lit "Kefir") (lit "Kefir") true
                (seq_ahead_init_sql 0) R) as H.
  destruct H as [H _].
  - vm_compute. discriminate.
  - reflexivity.
  - vm_compute. discriminate.
  - reflexivity.
  - vm_compute. lia.
  - reflexivity.
  - now rewrite H.
Defined.
